(** * hotellook: a client of the travelpayouts hotel-search API

    A shallow embedding of [hotellook.go]: the client record, the access
    gate, the request-signing routine [withSignature] together with the
    standard-library routines it is built from (MD5, hex, decimal printing,
    query escaping and [url.Values]), and the nine endpoint methods as
    programs over an explicit set of external events (HTTP GET, file read,
    the spawned rate-limit update, a runtime panic).

    The routines of Go's standard library follow their documented
    behaviour; the JSON decoder, [net.IP.String] and [strings.ToUpper] are
    parameters.

    Conventions.
    - A Go [string] is a sequence of bytes: Rocq's [string], one [ascii]
      per byte.  A byte slice handed to the hash is a [list Z] of octets.
    - A Go [int] is a [Z]; the 64-bit range is written out where the code
      depends on it ([Atoi] clamps, [make] rejects a negative length).
    - A Go [map[string]string] is a [gmap string string].  The order in
      which [range] yields its keys is not fixed by the language, so the
      function that ranges takes that order as an explicit argument.
    - A pointer result that may be [nil] is an [option]. *)

From Stdlib Require Import ZArith Ascii String DecimalString DecimalPos DecimalZ.
From stdpp Require Import gmap strings list sorting.

Local Open Scope Z_scope.

(** ** Bytes and strings *)

Module Bytes.

(** The conversion of a string to a byte slice: its octets. *)
Definition of_string (s : string) : list Z :=
  map (fun c => Z.of_N (N_of_ascii c)) (list_ascii_of_string s).

Definition to_ascii (b : Z) : ascii := ascii_of_N (Z.to_N b).

(** Little-endian octets of [x], [n] of them. *)
Fixpoint le_bytes (n : nat) (x : Z) : list Z :=
  match n with
  | O => []
  | S n' => Z.land x 255 :: le_bytes n' (Z.shiftr x 8)
  end.

(** Little-endian value of a list of octets. *)
Fixpoint le_value (bs : list Z) : Z :=
  match bs with
  | [] => 0
  | b :: bs' => Z.lor b (Z.shiftl (le_value bs') 8)
  end.

End Bytes.

(** ** crypto/md5 (RFC 1321), on 32-bit words with wrap-around *)

Module MD5.

Definition u32 (x : Z) : Z := x mod 2 ^ 32.
Definition add32 (x y : Z) : Z := u32 (x + y).
Definition not32 (x : Z) : Z := Z.lxor x 4294967295.

(** [bits.RotateLeft32]. *)
Definition rotl32 (x s : Z) : Z :=
  u32 (Z.lor (Z.shiftl x s) (Z.shiftr x (32 - s))).

(** The table [floor (2^32 * |sin (i + 1)|)]. *)
Definition K : list Z :=
  [ 0xd76aa478; 0xe8c7b756; 0x242070db; 0xc1bdceee;
    0xf57c0faf; 0x4787c62a; 0xa8304613; 0xfd469501;
    0x698098d8; 0x8b44f7af; 0xffff5bb1; 0x895cd7be;
    0x6b901122; 0xfd987193; 0xa679438e; 0x49b40821;
    0xf61e2562; 0xc040b340; 0x265e5a51; 0xe9b6c7aa;
    0xd62f105d; 0x02441453; 0xd8a1e681; 0xe7d3fbc8;
    0x21e1cde6; 0xc33707d6; 0xf4d50d87; 0x455a14ed;
    0xa9e3e905; 0xfcefa3f8; 0x676f02d9; 0x8d2a4c8a;
    0xfffa3942; 0x8771f681; 0x6d9d6122; 0xfde5380c;
    0xa4beea44; 0x4bdecfa9; 0xf6bb4b60; 0xbebfbc70;
    0x289b7ec6; 0xeaa127fa; 0xd4ef3085; 0x04881d05;
    0xd9d4d039; 0xe6db99e5; 0x1fa27cf8; 0xc4ac5665;
    0xf4292244; 0x432aff97; 0xab9423a7; 0xfc93a039;
    0x655b59c3; 0x8f0ccc92; 0xffeff47d; 0x85845dd1;
    0x6fa87e4f; 0xfe2ce6e0; 0xa3014314; 0x4e0811a1;
    0xf7537e82; 0xbd3af235; 0x2ad7d2bb; 0xeb86d391 ].

(** Rotation amounts, four per round. *)
Definition shifts : list Z :=
  [ 7; 12; 17; 22;  7; 12; 17; 22;  7; 12; 17; 22;  7; 12; 17; 22;
    5;  9; 14; 20;  5;  9; 14; 20;  5;  9; 14; 20;  5;  9; 14; 20;
    4; 11; 16; 23;  4; 11; 16; 23;  4; 11; 16; 23;  4; 11; 16; 23;
    6; 10; 15; 21;  6; 10; 15; 21;  6; 10; 15; 21;  6; 10; 15; 21 ].

(** The round functions, in the form the block routine writes them. *)
Definition mix (i : nat) (b c d : Z) : Z :=
  match Nat.div i 16 with
  | 0%nat => Z.lxor (Z.land (Z.lxor c d) b) d
  | 1%nat => Z.lxor (Z.land (Z.lxor b c) d) c
  | 2%nat => Z.lxor (Z.lxor b c) d
  | _ => Z.lxor c (Z.lor b (not32 d))
  end.

(** Which message word step [i] reads. *)
Definition word_index (i : nat) : nat :=
  match Nat.div i 16 with
  | 0%nat => i
  | 1%nat => Nat.modulo (5 * i + 1) 16
  | 2%nat => Nat.modulo (3 * i + 5) 16
  | _ => Nat.modulo (7 * i) 16
  end.

Definition state : Type := Z * Z * Z * Z.

Definition init : state := (0x67452301, 0xefcdab89, 0x98badcfe, 0x10325476).

Definition step (X : list Z) (st : state) (i : nat) : state :=
  let '(a, b, c, d) := st in
  let sum := add32 (add32 (add32 (mix i b c d) a) (nth (word_index i) X 0))
                   (nth i K 0) in
  (d, add32 b (rotl32 sum (nth i shifts 0)), b, c).

(** The sixteen little-endian words of a 64-octet block. *)
Definition words (block : list Z) : list Z :=
  map (fun j => Bytes.le_value (take 4 (drop (4 * j) block))) (seq 0 16).

Definition block (st : state) (blk : list Z) : state :=
  let '(a0, b0, c0, d0) := st in
  let '(a, b, c, d) := foldl (step (words blk)) st (seq 0 64) in
  (add32 a0 a, add32 b0 b, add32 c0 c, add32 d0 d).

(** Padding: 0x80, zeros up to 56 mod 64, the bit length on 64 bits. *)
Definition pad (msg : list Z) : list Z :=
  let len := Z.of_nat (length msg) in
  msg ++ [128] ++ replicate (Z.to_nat ((55 - len) mod 64)) 0
      ++ Bytes.le_bytes 8 ((len * 8) mod 2 ^ 64).

Fixpoint blocks (n : nat) (bs : list Z) : list (list Z) :=
  match n with
  | O => []
  | S n' => take 64 bs :: blocks n' (drop 64 bs)
  end.

(** [md5.Sum]: the sixteen octets of the digest. *)
Definition sum (msg : list Z) : list Z :=
  let p := pad msg in
  let '(a, b, c, d) := foldl block init (blocks (Nat.div (length p) 64) p) in
  Bytes.le_bytes 4 a ++ Bytes.le_bytes 4 b ++ Bytes.le_bytes 4 c
                 ++ Bytes.le_bytes 4 d.

End MD5.

(** ** encoding/hex *)

Module Hex.

Definition hextable : string := "0123456789abcdef".
Definition upperhex : string := "0123456789ABCDEF".

Definition digit (table : string) (n : Z) : ascii :=
  match String.get (Z.to_nat n) table with
  | Some c => c
  | None => "0"%char
  end.

(** [hex.EncodeToString]. *)
Fixpoint EncodeToString (src : list Z) : string :=
  match src with
  | [] => ""
  | b :: rest =>
      String (digit hextable (Z.shiftr b 4))
        (String (digit hextable (Z.land b 15)) (EncodeToString rest))
  end.

End Hex.

(** ** strconv *)

Module Strconv.

Definition int_max : Z := 2 ^ 63 - 1.
Definition int_min : Z := - 2 ^ 63.
Definition uint64_max : Z := 2 ^ 64 - 1.

(** [strconv.Itoa]: the decimal numeral, with a minus sign when
    negative. *)
Definition Itoa (i : Z) : string := NilZero.string_of_int (Z.to_int i).

Inductive NumError : Type := ErrSyntax | ErrRange.

Definition code (c : ascii) : Z := Z.of_N (N_of_ascii c).

Definition is_digit (c : ascii) : bool := (48 <=? code c) && (code c <=? 57).

(** The digit loop of [strconv.ParseUint] in base 10 on 64 bits: it
    stops at the first byte that is not a digit, or at the first
    overflow, whichever comes first. *)
Fixpoint parse_uint_loop (s : string) (n : Z) : Z * option NumError :=
  match s with
  | EmptyString => (n, None)
  | String c s' =>
      if negb (is_digit c) then (0, Some ErrSyntax)
      else if uint64_max / 10 + 1 <=? n then (uint64_max, Some ErrRange)
      else
        let n1 := n * 10 + (code c - 48) in
        if uint64_max <? n1 then (uint64_max, Some ErrRange)
        else parse_uint_loop s' n1
  end.

Definition ParseUint (s : string) : Z * option NumError :=
  match s with
  | EmptyString => (0, Some ErrSyntax)
  | _ => parse_uint_loop s 0
  end.

(** [strconv.Atoi], through [ParseInt (s, 10, 0)]: an optional sign, then
    [ParseUint]; a syntax error yields 0, a range error the nearest
    bound.  (The short-string fast path of [Atoi] computes the same
    values.) *)
Definition Atoi (s : string) : Z * option NumError :=
  match s with
  | EmptyString => (0, Some ErrSyntax)
  | String c0 rest =>
      let neg := bool_decide (c0 = "-"%char) in
      let body := if bool_decide (c0 = "+"%char) || neg then rest else s in
      match ParseUint body with
      | (_, Some ErrSyntax) => (0, Some ErrSyntax)
      | (un, err) =>
          if negb neg && (2 ^ 63 <=? un) then (int_max, Some ErrRange)
          else if neg && (2 ^ 63 <? un) then (int_min, Some ErrRange)
          else (if neg then - un else un, err)
      end
  end.

End Strconv.

(** ** sort *)

(** [sort.StringSlice.Sort] orders strings by Go's [<], the byte-wise
    lexicographic order, which is [String.le].  That order is total and
    antisymmetric, so a slice has exactly one sorted arrangement and every
    sorting algorithm returns it (see [Sort_unique]). *)
Definition Sort (keys : list string) : list string := merge_sort String.le keys.

(** ** net/url *)

Module URL.

(** [shouldEscape c encodeQueryComponent]: letters, digits and the four
    marks [- _ . ~] are copied; the reserved marks are escaped in this mode,
    like every other byte. *)
Definition shouldEscape (c : ascii) : bool :=
  let n := Strconv.code c in
  if ((97 <=? n) && (n <=? 122)) || ((65 <=? n) && (n <=? 90))
     || ((48 <=? n) && (n <=? 57))
  then false
  else if bool_decide (c = "-"%char) || bool_decide (c = "_"%char)
          || bool_decide (c = "."%char) || bool_decide (c = "~"%char)
  then false
  else true.

(** [url.QueryEscape]: a space becomes [+], an escaped byte becomes [%XX]
    in upper-case hex, the rest is copied. *)
Fixpoint QueryEscape (s : string) : string :=
  match s with
  | EmptyString => EmptyString
  | String c s' =>
      if bool_decide (c = " "%char) then String "+"%char (QueryEscape s')
      else if shouldEscape c then
        String "%"%char
          (String (Hex.digit Hex.upperhex (Z.shiftr (Strconv.code c) 4))
             (String (Hex.digit Hex.upperhex (Z.land (Strconv.code c) 15))
                (QueryEscape s')))
      else String c (QueryEscape s')
  end.

(** [url.Values]: each key maps to the list of its values. *)
Abbreviation Values := (gmap string (list string)).

(** [v.Add(key, value)]: append [value] to the values of [key]. *)
Definition Add (key value : string) (v : Values) : Values :=
  <[key := default [] (v !! key) ++ [value]]> v.

(** One pass of the inner loop of [Encode]: an ampersand unless the
    buffer is empty, the escaped key, an equals sign, the escaped
    value. *)
Definition write_pair (k : string) (buf : string) (x : string) : string :=
  (if bool_decide (0 < String.length buf)%nat then buf +:+ "&" else buf)
    +:+ QueryEscape k +:+ "=" +:+ QueryEscape x.

(** [v.Encode()] when [range v] yields the keys in the order [ks]. *)
Definition Encode_ranged (ks : list string) (v : Values) : string :=
  foldl (fun buf k => foldl (write_pair k) buf (default [] (v !! k)))
        "" (Sort ks).

(** The keys of a map, in the order stdpp lists them. *)
Definition keys {V} (m : gmap string V) : list string := (map_to_list m).*1.

Definition Encode (v : Values) : string := Encode_ranged (keys v) v.

End URL.

(** ** The client *)

Definition apiURL : string := "http://engine.hotellook.com/api/v2/".

(** The errors a method can return.  The three package-level values are
    compared by identity in Go; the errors of [net/http] and of the JSON
    decoder are values of their own, never identical to one of the
    three. *)
Inductive error : Type :=
| ErrNoAccess
| ErrEmptySearchID
| ErrMissingParams
| TransportError (msg : string)
| DecodeError (msg : string).

(** The [API] struct.  Its mutex only serialises [updateRemains] and its
    [client] field is never assigned or read; neither carries data. *)
Record API : Type := {
  token : string;
  marker : Z;
  remains : Z;
  limit : Z
}.

Definition NewAPI (marker : Z) : option API :=
  if marker =? 0 then None
  else Some {| token := ""; marker := marker; remains := 0; limit := 0 |}.

Definition SetToken (this : API) (token : string) : API :=
  {| token := token; marker := marker this;
     remains := remains this; limit := limit this |}.

Definition RequestsRemains (this : API) : Z := 0.

Definition RequestsLimit (this : API) : Z := 0.

(** What [http.Get] hands back on success: the header and the bytes
    [ioutil.ReadAll] obtains from the body (its error is dropped by every
    caller). *)
Record Response : Type := {
  Header : gmap string (list string);
  Body : string
}.

(** [Header.Get]: the first value under the key, or the empty string.  The
    two keys used below are already in canonical form. *)
Definition Header_Get (h : gmap string (list string)) (key : string) : string :=
  match h !! key with
  | Some (x :: _) => x
  | _ => ""
  end.

Definition updateRemains (this : API) (r : Response) : API :=
  {| token := token this; marker := marker this;
     remains := fst (Strconv.Atoi (Header_Get (Header r) "X-Ratelimit-Remaining"));
     limit := fst (Strconv.Atoi (Header_Get (Header r) "X-Ratelimit-Limit")) |}.

(** [range] over a map yields each key once, in some order. *)
Definition ranges {V} (m : gmap string V) (order : list string) : Prop :=
  order ≡ₚ URL.keys m.

(** One pass of the loop over the sorted keys: extend the source string and
    add the parameter to the query. *)
Definition sign_param (params : gmap string string)
    (acc : string * URL.Values) (k : string) : string * URL.Values :=
  (acc.1 +:+ ":" +:+ default "" (params !! k),
   URL.Add k (default "" (params !! k)) acc.2).

(** [withSignature] when [range params] yields the keys in [order] (which
    is not looked at when [params] is nil). *)
Definition withSignature_ranged (this : API)
    (params : option (gmap string string)) (order : list string) : string :=
  let src := token this +:+ ":" +:+ Strconv.Itoa (marker this) in
  let v : URL.Values := ∅ in
  let '(src, v) :=
    match params with
    | None => (src, v)
    | Some m => foldl (sign_param m) (src, v) (Sort order)
    end in
  let hash := MD5.sum (Bytes.of_string src) in
  let v := URL.Add "marker" (Strconv.Itoa (marker this)) v in
  let v := URL.Add "signature" (Hex.EncodeToString hash) v in
  URL.Encode v.

Definition withSignature (this : API) (params : option (gmap string string))
  : string :=
  withSignature_ranged this params (from_option URL.keys [] params).

Definition checkAccess (this : API) : option error :=
  if bool_decide (token this = "") || (marker this =? 0)
  then Some ErrNoAccess
  else None.

(** ** External events

    A method is a program over the events it performs on the outside
    world; the program is data, so which events it reaches can be read off
    and it can be run against any behaviour of the network and the disk. *)

Inductive GetResult : Type :=
| GetOK (r : Response)
| GetFailed (msg : string).

Inductive IO (A : Type) : Type :=
| Ret (a : A)
| HttpGet (url : string) (k : GetResult → IO A)
| GoUpdateRemains (r : Response) (k : IO A)
| ReadFile (path : string) (k : string → IO A)
| Panic (msg : string).

Arguments Ret {A} a.
Arguments HttpGet {A} url k.
Arguments GoUpdateRemains {A} r k.
Arguments ReadFile {A} path k.
Arguments Panic {A} msg.

Fixpoint IO_bind {A B} (f : A → IO B) (m : IO A) : IO B :=
  match m with
  | Ret a => f a
  | HttpGet url k => HttpGet url (fun res => IO_bind f (k res))
  | GoUpdateRemains r k => GoUpdateRemains r (IO_bind f k)
  | ReadFile path k => ReadFile path (fun body => IO_bind f (k body))
  | Panic msg => Panic msg
  end.

#[global] Instance IO_ret : MRet IO := @Ret.
#[global] Instance IO_mbind : MBind IO := @IO_bind.

(** [http.Get(url)]. *)
Definition http_Get (url : string) : IO GetResult := HttpGet url Ret.

(** [go this.updateRemains(r)]. *)
Definition go_updateRemains (r : Response) : IO unit := GoUpdateRemains r (Ret tt).

(** [ioutil.ReadFile(path)] with its error dropped: the contents, empty
    when the file cannot be read. *)
Definition ioutil_ReadFile (path : string) : IO string := ReadFile path Ret.

(** The outside world of one call: what the network answers to a GET and
    what the disk holds. *)
Record World : Type := {
  net : string → GetResult;
  disk : string → string
}.

Inductive Event : Type :=
| GET (url : string)
| READ (path : string)
| GO (r : Response).

Inductive Outcome (A : Type) : Type :=
| Returned (a : A)
| Panicked (msg : string).

Arguments Returned {A} a.
Arguments Panicked {A} msg.

(** Run a program in a world: its outcome and the events it performed, in
    order. *)
Fixpoint run {A} (w : World) (p : IO A) : Outcome A * list Event :=
  match p with
  | Ret a => (Returned a, [])
  | HttpGet url k => let '(o, t) := run w (k (net w url)) in (o, GET url :: t)
  | GoUpdateRemains r k => let '(o, t) := run w k in (o, GO r :: t)
  | ReadFile path k => let '(o, t) := run w (k (disk w path)) in (o, READ path :: t)
  | Panic msg => (Panicked msg, [])
  end.

(** The URLs requested over the network during a run. *)
Definition network_calls (t : list Event) : list string :=
  omap (fun e => match e with GET url => Some url | _ => None end) t.

(** The client once every spawned [updateRemains] of a run has finished. *)
Definition settle (this : API) (t : list Event) : API :=
  foldl (fun s e => match e with GO r => updateRemains s r | _ => s end) this t.

(** ** Decoding

    The JSON decoder and the shapes of the response types are outside the
    library; a response type is any type with a zero value and a decoder.
    [Decode body init] is [ffjson.NewDecoder().Decode(body, &x)] with [x]
    holding [init]: the value left in [x], and the error if any. *)

Class Zero (T : Type) : Type := { zero : T }.

Class JSON (T : Type) : Type := { Decode : string → T → T * option string }.

(** [make([]T, n)]: [n] zero values; a negative length, or one beyond what
    the runtime can allocate ([cap]), panics. *)
Definition make_slice {T} `{Zero T} (cap n : Z) : option (list T) :=
  if (n <? 0) || (cap <? n) then None
  else Some (replicate (Z.to_nat n) zero).

(** ** Requests *)

Module LookupRequest.
Record t : Type := {
  Query : string;
  Lang : string;
  LookFor : string;
  Limit : Z;
  ConvertCase : Z
}.
End LookupRequest.

Module PriceRequest.
Record t : Type := {
  Location : string;
  CheckIn : string;
  CheckOut : string;
  Currency : string;
  LocationID : Z;
  HotelID : Z;
  Hotel : string;
  Adults : Z;
  Children : Z;
  Infants : Z;
  Limit : Z;
  CustomerIP : list Z
}.
End PriceRequest.

Module SearchRequest.
Record t : Type := {
  CityID : Z;
  HotelID : Z;
  IATA : string;
  CheckIn : string;
  CheckOut : string;
  AdultsCount : Z;
  ChildrenCount : Z;
  ChildAges : Z * Z * Z;
  CustomerIp : string;
  Currency : string;
  Lang : string;
  WaitForResult : Z
}.
End SearchRequest.

Module SearchResultsRequest.
Record t : Type := {
  SearchID : Z;
  Limit : Z;
  Offset : Z;
  SortBy : string;
  SortAsc : Z;
  RoomsCount : Z
}.
End SearchResultsRequest.

(** The anonymous struct [Search] decodes into. *)
Record SearchStart : Type := {
  SearchID : Z;
  Status : string
}.

#[global] Instance SearchStart_zero : Zero SearchStart :=
  {| zero := {| SearchID := 0; Status := "" |} |}.

(** ** The endpoint methods *)

Section Endpoints.

(** The response types, each with its zero value and its decoder. *)
Context {LookupResponse PriceResponse Countries_t Cities_t Amenity
         HotelList RoomTypes_t SearchResults : Type}.
Context `{!Zero LookupResponse, !JSON LookupResponse}.
Context `{!Zero PriceResponse, !JSON (list PriceResponse)}.
Context `{!Zero Countries_t, !JSON (list Countries_t)}.
Context `{!Zero Cities_t, !JSON (list Cities_t)}.
Context `{!Zero Amenity, !JSON (list Amenity)}.
Context `{!Zero HotelList, !JSON HotelList}.
Context `{!Zero RoomTypes_t, !JSON RoomTypes_t}.
Context `{!Zero SearchResults, !JSON SearchResults}.
Context `{!JSON SearchStart}.

(** [net.IP.String] and [strings.ToUpper], and the longest slice of
    [PriceResponse] the runtime allocates. *)
Variable IP_String : list Z → string.
Variable ToUpper : string → string.
Variable max_PriceResponses : Z.

Definition Lookup_values (req : LookupRequest.t) : URL.Values :=
  let v : URL.Values := ∅ in
  let v := URL.Add "query" (LookupRequest.Query req) v in
  let v := URL.Add "lang" (LookupRequest.Lang req) v in
  let v := URL.Add "lookFor" (LookupRequest.LookFor req) v in
  let v := if bool_decide (LookupRequest.Limit req ≠ 0)
           then URL.Add "limit" (Strconv.Itoa (LookupRequest.Limit req)) v
           else v in
  let v := if bool_decide (LookupRequest.ConvertCase req ≠ 0)
           then URL.Add "convertCase" (Strconv.Itoa (LookupRequest.ConvertCase req)) v
           else v in
  v.

Definition Lookup (this : API) (req : LookupRequest.t)
  : IO (option LookupResponse * option error) :=
  let endpoint := "lookup.json?" in
  let v := Lookup_values req in
  res ← http_Get (apiURL +:+ endpoint +:+ URL.Encode v);
  match res with
  | GetFailed msg => mret (Some zero, Some (TransportError msg))
  | GetOK r =>
      go_updateRemains r;;
      let body := Body r in
      match Decode body (zero : LookupResponse) with
      | (_, Some msg) => mret (Some zero, Some (DecodeError msg))
      | (resp, None) => mret (Some resp, None)
      end
  end.

Definition Price_values (req : PriceRequest.t) : URL.Values :=
  let v : URL.Values := ∅ in
  let v := URL.Add "location" (PriceRequest.Location req) v in
  let v := URL.Add "checkIn" (PriceRequest.CheckIn req) v in
  let v := URL.Add "checkOut" (PriceRequest.CheckOut req) v in
  let v := if bool_decide (PriceRequest.LocationID req ≠ 0)
           then URL.Add "locationId" (Strconv.Itoa (PriceRequest.LocationID req)) v
           else v in
  let v := if bool_decide (PriceRequest.HotelID req ≠ 0)
           then URL.Add "hotleId" (Strconv.Itoa (PriceRequest.HotelID req)) v
           else v in
  let v := if bool_decide (PriceRequest.Hotel req ≠ "")
           then URL.Add "hotel" (PriceRequest.Hotel req) v
           else v in
  let v := if bool_decide (PriceRequest.Adults req ≠ 0)
           then URL.Add "adults" (Strconv.Itoa (PriceRequest.Adults req)) v
           else v in
  let v := if bool_decide (PriceRequest.Children req ≠ 0)
           then URL.Add "children" (Strconv.Itoa (PriceRequest.Children req)) v
           else v in
  let v := if bool_decide (PriceRequest.Currency req ≠ "")
           then URL.Add "currency" (PriceRequest.Currency req) v
           else v in
  let v := if bool_decide (PriceRequest.Infants req ≠ 0)
           then URL.Add "infants" (Strconv.Itoa (PriceRequest.Infants req)) v
           else v in
  let v := if bool_decide (PriceRequest.Limit req ≠ 0)
           then URL.Add "limit" (Strconv.Itoa (PriceRequest.Limit req)) v
           else v in
  let v := URL.Add "clientIp" (IP_String (PriceRequest.CustomerIP req)) v in
  v.

(** The value of [req.Limit] once the parameters are built: the [else]
    branch of the limit test stores 1 into the caller's request. *)
Definition Price_limit (req : PriceRequest.t) : Z :=
  if bool_decide (PriceRequest.Limit req ≠ 0) then PriceRequest.Limit req else 1.

Definition Price (this : API) (req : PriceRequest.t)
  : IO (option (list PriceResponse) * option error) :=
  let endpoint := "cache.json?" in
  let v := Price_values req in
  res ← http_Get (apiURL +:+ endpoint +:+ URL.Encode v);
  match res with
  | GetFailed msg => mret (None, Some (TransportError msg))
  | GetOK r =>
      go_updateRemains r;;
      let body := Body r in
      match make_slice max_PriceResponses (Price_limit req) with
      | None => Panic "runtime error: makeslice: len out of range"
      | Some resp =>
          match Decode body resp with
          | (_, Some msg) => mret (None, Some (DecodeError msg))
          | (resp, None) => mret (Some resp, None)
          end
      end
  end.

Definition Countries (this : API)
  : IO (option (list Countries_t) * option error) :=
  match checkAccess this with
  | Some err => mret (None, Some err)
  | None =>
      let endpoint := "static/countries.json?" in
      res ← http_Get (apiURL +:+ endpoint +:+ withSignature this None);
      match res with
      | GetFailed msg => mret (None, Some (TransportError msg))
      | GetOK r =>
          go_updateRemains r;;
          let body := Body r in
          match Decode body (replicate 1 (zero : Countries_t)) with
          | (_, Some _) => mret (None, Some ErrNoAccess)
          | (resp, None) => mret (Some resp, None)
          end
      end
  end.

Definition Cities (this : API)
  : IO (option (list Cities_t) * option error) :=
  match checkAccess this with
  | Some err => mret (None, Some err)
  | None =>
      let endpoint := "static/locations.json?" in
      res ← http_Get (apiURL +:+ endpoint +:+ withSignature this None);
      match res with
      | GetFailed msg => mret (None, Some (TransportError msg))
      | GetOK r =>
          go_updateRemains r;;
          let body := Body r in
          match Decode body (replicate 2 (zero : Cities_t)) with
          | (_, Some _) => mret (None, Some ErrNoAccess)
          | (resp, None) => mret (Some resp, None)
          end
      end
  end.

(** [Amenities] returns a slice, not a pointer to one: its [nil] is the
    empty list. *)
Definition Amenities (this : API) : IO (list Amenity * option error) :=
  match checkAccess this with
  | Some err => mret ([], Some err)
  | None =>
      let endpoint := "static/amenities.json?" in
      res ← http_Get (apiURL +:+ endpoint +:+ withSignature this None);
      match res with
      | GetFailed msg => mret ([], Some (TransportError msg))
      | GetOK r =>
          go_updateRemains r;;
          let body := Body r in
          match Decode body (replicate 1 (zero : Amenity)) with
          | (_, Some _) => mret ([], Some ErrNoAccess)
          | (resp, None) => mret (resp, None)
          end
      end
  end.

Definition FetchHotelList (this : API) (locationId : string)
  : IO (option HotelList * option error) :=
  match checkAccess this with
  | Some err => mret (None, Some err)
  | None =>
      let v : gmap string string := ∅ in
      let v := <["locationId" := locationId]> v in
      let endpoint := "static/hotels.json?" in
      res ← http_Get (apiURL +:+ endpoint +:+ withSignature this (Some v));
      match res with
      | GetFailed msg => mret (Some zero, Some (TransportError msg))
      | GetOK r =>
          go_updateRemains r;;
          let body := Body r in
          match Decode body (zero : HotelList) with
          | (_, Some _) => mret (Some zero, Some ErrNoAccess)
          | (resp, None) => mret (Some resp, None)
          end
      end
  end.

Definition RoomTypes (this : API) : IO (option RoomTypes_t * option error) :=
  let endpoint := "static/roomTypes.json?" in
  res ← http_Get (apiURL +:+ endpoint +:+ withSignature this None);
  match res with
  | GetFailed msg => mret (None, Some (TransportError msg))
  | GetOK r =>
      go_updateRemains r;;
      let body := Body r in
      match Decode body (zero : RoomTypes_t) with
      | (_, Some _) => mret (None, Some ErrNoAccess)
      | (resp, None) => mret (Some resp, None)
      end
  end.

Definition Search_params (req : SearchRequest.t) : gmap string string :=
  let v : gmap string string := ∅ in
  let v := <["cityId" := Strconv.Itoa (SearchRequest.CityID req)]> v in
  let v := if bool_decide (SearchRequest.HotelID req ≠ 0)
           then <["hotelId" := Strconv.Itoa (SearchRequest.HotelID req)]> v
           else v in
  let v := if bool_decide (SearchRequest.WaitForResult req ≠ 0)
           then <["waitForResult" := Strconv.Itoa (SearchRequest.WaitForResult req)]> v
           else v in
  let v := if bool_decide (SearchRequest.IATA req ≠ "")
           then <["iata" := SearchRequest.IATA req]> v
           else v in
  let v := <["checkIn" := SearchRequest.CheckIn req]> v in
  let v := <["checkOut" := SearchRequest.CheckOut req]> v in
  let v := <["adultsCount" := Strconv.Itoa (SearchRequest.AdultsCount req)]> v in
  let v := <["childrenCount" := Strconv.Itoa (SearchRequest.ChildrenCount req)]> v in
  let v :=
    if bool_decide (SearchRequest.ChildrenCount req ≠ 0) then
      let v := <["childAge1" := Strconv.Itoa (SearchRequest.ChildAges req).1.1]> v in
      let v := if bool_decide (1 < SearchRequest.ChildrenCount req)
               then <["childAge2" := Strconv.Itoa (SearchRequest.ChildAges req).1.2]> v
               else v in
      let v := if bool_decide (SearchRequest.ChildrenCount req = 3)
               then <["childAge3" := Strconv.Itoa (SearchRequest.ChildAges req).2]> v
               else v in
      v
    else v in
  let v := <["lang" := SearchRequest.Lang req]> v in
  let v := <["currency" := ToUpper (SearchRequest.Currency req)]> v in
  let v := <["customerIp" := SearchRequest.CustomerIp req]> v in
  v.

Definition Search (this : API) (req : SearchRequest.t) : IO (Z * option error) :=
  let endpoint := "search/start.json?" in
  let v := Search_params req in
  res ← http_Get (apiURL +:+ endpoint +:+ withSignature this (Some v));
  match res with
  | GetFailed msg => mret (0, Some (TransportError msg))
  | GetOK r =>
      go_updateRemains r;;
      let body := Body r in
      match Decode body (zero : SearchStart) with
      | (_, Some msg) => mret (0, Some (DecodeError msg))
      | (resp, None) => mret (SearchID resp, None)
      end
  end.

Definition FetchSearchResults_params (req : SearchResultsRequest.t)
    (v : gmap string string) : gmap string string :=
  let v := <["searchId" := Strconv.Itoa (SearchResultsRequest.SearchID req)]> v in
  let v := if bool_decide (SearchResultsRequest.Limit req ≠ 0)
           then <["limit" := Strconv.Itoa (SearchResultsRequest.Limit req)]> v
           else v in
  let v := if bool_decide (SearchResultsRequest.Offset req ≠ 0)
           then <["offset" := Strconv.Itoa (SearchResultsRequest.Offset req)]> v
           else v in
  let v := if bool_decide (SearchResultsRequest.SortBy req ≠ "")
           then <["sortBy" := SearchResultsRequest.SortBy req]> v
           else v in
  let v := if bool_decide (SearchResultsRequest.SortAsc req = -1)
           then <["sortAsc" := "0"]> v
           else v in
  let v := if bool_decide (SearchResultsRequest.RoomsCount req ≠ 0)
           then <["roomsCount" := Strconv.Itoa (SearchResultsRequest.RoomsCount req)]> v
           else v in
  v.

(** [FetchSearchResults], together with the contents of its local
    parameter map [v] at the point where the method returns or hands the
    map to [withSignature]. *)
Definition FetchSearchResults_body (this : API) (req : SearchResultsRequest.t)
  : gmap string string * IO (option SearchResults * option error) :=
  let endpoint := "search/getResult.json?" in
  let v : gmap string string := ∅ in
  if bool_decide (SearchResultsRequest.SearchID req = 0) then
    (v, mret (None, Some ErrEmptySearchID))
  else if bool_decide (SearchResultsRequest.SearchID req = -1) then
    (v,
     body ← ioutil_ReadFile "./test_data.json";
     match Decode body (zero : SearchResults) with
     | (resp, Some msg) => mret (Some resp, Some (DecodeError msg))
     | (resp, None) => mret (Some resp, None)
     end)
  else
    let v := FetchSearchResults_params req v in
    (v,
     res ← http_Get (apiURL +:+ endpoint +:+ withSignature this (Some v));
     match res with
     | GetFailed msg => mret (Some zero, Some (TransportError msg))
     | GetOK r =>
         go_updateRemains r;;
         let body := Body r in
         match Decode body (zero : SearchResults) with
         | (_, Some msg) => mret (Some zero, Some (DecodeError msg))
         | (resp, None) => mret (Some resp, None)
         end
     end).

Definition FetchSearchResults (this : API) (req : SearchResultsRequest.t)
  : IO (option SearchResults * option error) :=
  (FetchSearchResults_body this req).2.

End Endpoints.

(** ** The photo link *)

(** [PhotoLink]: [fmt.Sprintf] with two [%d] verbs, which print an [int]
    as [strconv.Itoa] does, and one [%s] verb, which copies the string. *)
Definition PhotoLink (this : API) (hotelId photoId : Z) (size : string) : string :=
  "https://photo.hotellook.com/image_v2/limit/h" +:+ Strconv.Itoa hotelId
    +:+ "_" +:+ Strconv.Itoa photoId +:+ "/" +:+ size +:+ ".jpg".

(** The caller's request once [Price] has built its parameters: the
    request is passed by pointer, and the [else] branch of the limit test
    stores 1 into its [Limit]. *)
Definition Price_stores (req : PriceRequest.t) : PriceRequest.t :=
  {| PriceRequest.Location := PriceRequest.Location req;
     PriceRequest.CheckIn := PriceRequest.CheckIn req;
     PriceRequest.CheckOut := PriceRequest.CheckOut req;
     PriceRequest.Currency := PriceRequest.Currency req;
     PriceRequest.LocationID := PriceRequest.LocationID req;
     PriceRequest.HotelID := PriceRequest.HotelID req;
     PriceRequest.Hotel := PriceRequest.Hotel req;
     PriceRequest.Adults := PriceRequest.Adults req;
     PriceRequest.Children := PriceRequest.Children req;
     PriceRequest.Infants := PriceRequest.Infants req;
     PriceRequest.Limit := Price_limit req;
     PriceRequest.CustomerIP := PriceRequest.CustomerIP req |}.

(** * The vocabulary of the properties

    Notions the statements below are written with; none of them is part of
    the library. *)

(** ** Strings and bytes *)

(** Every byte of the string satisfies [P]. *)
Fixpoint string_forall (P : ascii → Prop) (s : string) : Prop :=
  match s with
  | EmptyString => True
  | String c s' => P c ∧ string_forall P s'
  end.

(** No byte of the string is [sep]. *)
Definition free_of (sep : ascii) (s : string) : Prop :=
  string_forall (fun c => c ≠ sep) s.

(** A byte [QueryEscape] copies unchanged. *)
Definition unreserved (c : ascii) : Prop := URL.shouldEscape c = false.

(** A lower-case hexadecimal digit. *)
Definition lower_hex (c : ascii) : Prop :=
  ∃ n, String.get n Hex.hextable = Some c.

(** The signature of a source string: the MD5 digest in lower-case hex. *)
Definition md5_hex (src : string) : string :=
  Hex.EncodeToString (MD5.sum (Bytes.of_string src)).

(** ** Query strings, written and read back *)

Module Query.

(** One [key=value] segment, both sides escaped. *)
Definition segment (p : string * string) : string :=
  URL.QueryEscape p.1 +:+ "=" +:+ URL.QueryEscape p.2.

(** Segments joined by ampersands. *)
Fixpoint join (l : list string) : string :=
  match l with
  | [] => ""
  | [s] => s
  | s :: l' => s +:+ "&" +:+ join l'
  end.

(** The URL-encoded form of a list of parameters. *)
Definition encode (ps : list (string * string)) : string := join (segment <$> ps).

(** The parameters held by a [url.Values], keys in the order [ks]. *)
Definition pairs_of (v : URL.Values) (ks : list string) : list (string * string) :=
  k ← ks; pair k <$> default [] (v !! k).

(** The parameters in the order [Encode] writes them. *)
Definition pairs (v : URL.Values) : list (string * string) :=
  pairs_of v (Sort (URL.keys v)).

End Query.

Module Parse.

Definition hex_value (c : ascii) : option Z :=
  let n := Strconv.code c in
  if (48 <=? n) && (n <=? 57) then Some (n - 48)
  else if (97 <=? n) && (n <=? 102) then Some (n - 87)
  else if (65 <=? n) && (n <=? 70) then Some (n - 55)
  else None.

(** [url.QueryUnescape]: [+] is a space, [%XX] the byte with that code. *)
Fixpoint unescape (s : string) : option string :=
  match s with
  | EmptyString => Some EmptyString
  | String c rest =>
      if bool_decide (c = "%"%char) then
        match rest with
        | String a (String b rest') =>
            match hex_value a, hex_value b with
            | Some hi, Some lo =>
                String (Bytes.to_ascii (16 * hi + lo)) <$> unescape rest'
            | _, _ => None
            end
        | _ => None
        end
      else if bool_decide (c = "+"%char) then String " "%char <$> unescape rest
      else String c <$> unescape rest
  end.

(** [strings.Cut]: the text before the first [sep], and the text after it
    if there is one. *)
Fixpoint cut (sep : ascii) (s : string) : string * option string :=
  match s with
  | EmptyString => (EmptyString, None)
  | String c s' =>
      if bool_decide (c = sep) then (EmptyString, Some s')
      else (String c (cut sep s').1, (cut sep s').2)
  end.

(** [strings.Split] on one byte. *)
Fixpoint split (sep : ascii) (s : string) : list string :=
  match s with
  | EmptyString => [EmptyString]
  | String c s' =>
      if bool_decide (c = sep) then EmptyString :: split sep s'
      else match split sep s' with
           | h :: t => String c h :: t
           | [] => [String c EmptyString]
           end
  end.

Definition segment (seg : string) : option (string * string) :=
  k ← unescape (cut "="%char seg).1;
  x ← unescape (default "" (cut "="%char seg).2);
  Some (k, x).

(** The parameters [url.ParseQuery] reads, in the order it adds them to
    its result: the non-empty segments between ampersands, each cut at its
    first equals sign and unescaped. *)
Definition query (s : string) : option (list (string * string)) :=
  mapM segment (filter (fun seg => seg ≠ "") (split "&"%char s)).

End Parse.

(** [holds v k x]: the value [x] is recorded under the key [k]. *)
Definition holds (v : URL.Values) (k x : string) : Prop :=
  ∃ xs, v !! k = Some xs ∧ x ∈ xs.

(** ** Signing *)

(** The part of the source string the parameters contribute: a colon and
    the value, for each key of [ks] in turn. *)
Definition values_tail (m : gmap string string) (ks : list string) : string :=
  foldr (fun k acc => ":" +:+ default "" (m !! k) +:+ acc) "" ks.

(** The map obtained by the assignments [v[k] = x], made in list order. *)
Definition assign_all (l : list (string * string)) : gmap string string :=
  foldl (fun m p => <[p.1 := p.2]> m) ∅ l.

(** ** Results of a run *)

(** A body the decoder of [T] rejects, whatever value it decodes into. *)
Definition undecodable (T : Type) `{!JSON T} (body msg : string) : Prop :=
  ∀ init : T, (Decode body init).2 = Some msg.

(** The error a run returned, if it returned. *)
Definition returned_error {A} (o : Outcome (A * option error))
  : option (option error) :=
  match o with
  | Returned (_, e) => Some e
  | Panicked _ => None
  end.

(** ** Closed inputs

    The client and the parameters of the package's tests, and a stand-in
    for a response type and its decoder to run the methods on concrete
    inputs: the decoded value is the body text itself, and a body decodes
    when it opens with a brace or a bracket. *)

(** The client and the parameters of the package's own signature test. *)
Definition test_api : API :=
  {| token := "bqadagadoqadjmcocciox1grdvp3ag"; marker := 35290;
     remains := 0; limit := 0 |}.

Definition test_params : gmap string string :=
  <["lookFor" := "both"]> (<["limit" := "1"]> (<["lang" := "en"]>
    (<["query" := "moscow"]> ∅))).

(** The request of the package's price test, with a negative limit. *)
Definition negative_limit_request : PriceRequest.t :=
  {| PriceRequest.Location := "MOW";
     PriceRequest.CheckIn := "2016-12-10";
     PriceRequest.CheckOut := "2016-12-17";
     PriceRequest.Currency := "rub";
     PriceRequest.LocationID := 0;
     PriceRequest.HotelID := 0;
     PriceRequest.Hotel := "";
     PriceRequest.Adults := 0;
     PriceRequest.Children := 0;
     PriceRequest.Infants := 0;
     PriceRequest.Limit := -1;
     PriceRequest.CustomerIP := [] |}.

Module Raw.

Definition t : Type := string.

Definition zero_t : Zero t := {| zero := "" |}.

Definition decode (body : string) (init : t) : t * option string :=
  match body with
  | String c _ =>
      if bool_decide (c = "{"%char) || bool_decide (c = "["%char)
      then (body, None)
      else (init, Some "invalid character looking for beginning of value")
  | EmptyString => (init, Some "EOF")
  end.

Definition json_t : JSON t := {| Decode := decode |}.

(** A world without network whose disk holds the fixture. *)
Definition offline : World :=
  {| net := fun _ => GetFailed "dial tcp: no route to host";
     disk := fun path => if bool_decide (path = "./test_data.json")
                         then "{}" else "" |}.

End Raw.

(** ** Numerals and counters *)

(** The nearest value of the 64-bit [int] range. *)
Definition clamp_int (n : Z) : Z := Z.max Strconv.int_min (Z.min Strconv.int_max n).

(** The number a decimal numeral denotes, read left to right from [n]. *)
Fixpoint acc_value (d : Decimal.uint) (n : Z) : Z :=
  match d with
  | Decimal.Nil => n
  | Decimal.D0 l => acc_value l (10 * n)
  | Decimal.D1 l => acc_value l (10 * n + 1)
  | Decimal.D2 l => acc_value l (10 * n + 2)
  | Decimal.D3 l => acc_value l (10 * n + 3)
  | Decimal.D4 l => acc_value l (10 * n + 4)
  | Decimal.D5 l => acc_value l (10 * n + 5)
  | Decimal.D6 l => acc_value l (10 * n + 6)
  | Decimal.D7 l => acc_value l (10 * n + 7)
  | Decimal.D8 l => acc_value l (10 * n + 8)
  | Decimal.D9 l => acc_value l (10 * n + 9)
  end.

(** The responses handed to a spawned [updateRemains] during a run. *)
Definition spawned (t : list Event) : list Response :=
  omap (fun e => match e with GO r => Some r | _ => None end) t.

(** ** Calls

    The nine methods under one type, so that a property of every method
    can be stated once. *)

Inductive Call : Type :=
| CallLookup (req : LookupRequest.t)
| CallPrice (req : PriceRequest.t)
| CallCountries
| CallCities
| CallAmenities
| CallFetchHotelList (locationId : string)
| CallRoomTypes
| CallSearch (req : SearchRequest.t)
| CallFetchSearchResults (req : SearchResultsRequest.t).

(** Whether the call goes out to the network, as the code decides it: the
    four methods that begin with [checkAccess] need a token and a marker,
    [FetchSearchResults] an identifier other than 0 and -1, the others
    nothing. *)
Definition reaches_network (c : Call) (this : API) : Prop :=
  match c with
  | CallCountries | CallCities | CallAmenities | CallFetchHotelList _ =>
      token this ≠ "" ∧ marker this ≠ 0
  | CallFetchSearchResults req =>
      SearchResultsRequest.SearchID req ≠ 0
      ∧ SearchResultsRequest.SearchID req ≠ -1
  | _ => True
  end.

(** What the network answered to the requests of a run, in order. *)
Definition answers (w : World) (t : list Event) : list GetResult :=
  net w <$> network_calls t.

(** The responses among the answers. *)
Definition responses (l : list GetResult) : list Response :=
  omap (fun a => match a with GetOK r => Some r | GetFailed _ => None end) l.

Section Calls.

Context {LookupResponse PriceResponse Countries_t Cities_t Amenity
         HotelList RoomTypes_t SearchResults : Type}.
Context `{!Zero LookupResponse, !JSON LookupResponse}.
Context `{!Zero PriceResponse, !JSON (list PriceResponse)}.
Context `{!Zero Countries_t, !JSON (list Countries_t)}.
Context `{!Zero Cities_t, !JSON (list Cities_t)}.
Context `{!Zero Amenity, !JSON (list Amenity)}.
Context `{!Zero HotelList, !JSON HotelList}.
Context `{!Zero RoomTypes_t, !JSON RoomTypes_t}.
Context `{!Zero SearchResults, !JSON SearchResults}.
Context `{!JSON SearchStart}.
Variable IP_String : list Z → string.
Variable ToUpper : string → string.
Variable max_PriceResponses : Z.

(** The events of a call run in a world. *)
Definition call_trace (c : Call) (this : API) (w : World) : list Event :=
  match c with
  | CallLookup req =>
      (run w (Lookup (LookupResponse := LookupResponse) this req)).2
  | CallPrice req =>
      (run w (Price (PriceResponse := PriceResponse)
                IP_String max_PriceResponses this req)).2
  | CallCountries => (run w (Countries (Countries_t := Countries_t) this)).2
  | CallCities => (run w (Cities (Cities_t := Cities_t) this)).2
  | CallAmenities => (run w (Amenities (Amenity := Amenity) this)).2
  | CallFetchHotelList locationId =>
      (run w (FetchHotelList (HotelList := HotelList) this locationId)).2
  | CallRoomTypes => (run w (RoomTypes (RoomTypes_t := RoomTypes_t) this)).2
  | CallSearch req => (run w (Search ToUpper this req)).2
  | CallFetchSearchResults req =>
      (run w (FetchSearchResults (SearchResults := SearchResults) this req)).2
  end.

(** The error of a call run in a world: [Some e] when it returned with the
    error [e] ([Some None]: a nil error), [None] when it panicked. *)
Definition call_error (c : Call) (this : API) (w : World)
  : option (option error) :=
  match c with
  | CallLookup req =>
      returned_error (run w (Lookup (LookupResponse := LookupResponse) this req)).1
  | CallPrice req =>
      returned_error
        (run w (Price (PriceResponse := PriceResponse)
                  IP_String max_PriceResponses this req)).1
  | CallCountries =>
      returned_error (run w (Countries (Countries_t := Countries_t) this)).1
  | CallCities => returned_error (run w (Cities (Cities_t := Cities_t) this)).1
  | CallAmenities =>
      returned_error (run w (Amenities (Amenity := Amenity) this)).1
  | CallFetchHotelList locationId =>
      returned_error
        (run w (FetchHotelList (HotelList := HotelList) this locationId)).1
  | CallRoomTypes =>
      returned_error (run w (RoomTypes (RoomTypes_t := RoomTypes_t) this)).1
  | CallSearch req => returned_error (run w (Search ToUpper this req)).1
  | CallFetchSearchResults req =>
      returned_error
        (run w (FetchSearchResults (SearchResults := SearchResults) this req)).1
  end.

End Calls.

(** The methods that sign their request with the client's credentials and
    report an undecodable body as [ErrNoAccess]. *)
Definition closed_call (c : Call) : Prop :=
  match c with
  | CallCountries | CallCities | CallAmenities | CallFetchHotelList _
  | CallRoomTypes => True
  | _ => False
  end.

(** ** Parameter lists *)

(** A parameter that is sent only under a condition. *)
Definition opt (b : bool) (k x : string) : list (string * string) :=
  if b then [(k, x)] else [].

(** The parameters of [Lookup], in the order they appear in its query
    string. *)
Definition Lookup_list (req : LookupRequest.t) : list (string * string) :=
  opt (bool_decide (LookupRequest.ConvertCase req ≠ 0))
      "convertCase" (Strconv.Itoa (LookupRequest.ConvertCase req))
  ++ [("lang", LookupRequest.Lang req)]
  ++ opt (bool_decide (LookupRequest.Limit req ≠ 0))
         "limit" (Strconv.Itoa (LookupRequest.Limit req))
  ++ [("lookFor", LookupRequest.LookFor req);
      ("query", LookupRequest.Query req)].

(** The parameters of [Price], in the order they appear in its query
    string. *)
Definition Price_list (IP_String : list Z → string) (req : PriceRequest.t)
  : list (string * string) :=
  opt (bool_decide (PriceRequest.Adults req ≠ 0))
      "adults" (Strconv.Itoa (PriceRequest.Adults req))
  ++ [("checkIn", PriceRequest.CheckIn req);
      ("checkOut", PriceRequest.CheckOut req)]
  ++ opt (bool_decide (PriceRequest.Children req ≠ 0))
         "children" (Strconv.Itoa (PriceRequest.Children req))
  ++ [("clientIp", IP_String (PriceRequest.CustomerIP req))]
  ++ opt (bool_decide (PriceRequest.Currency req ≠ ""))
         "currency" (PriceRequest.Currency req)
  ++ opt (bool_decide (PriceRequest.Hotel req ≠ ""))
         "hotel" (PriceRequest.Hotel req)
  ++ opt (bool_decide (PriceRequest.HotelID req ≠ 0))
         "hotleId" (Strconv.Itoa (PriceRequest.HotelID req))
  ++ opt (bool_decide (PriceRequest.Infants req ≠ 0))
         "infants" (Strconv.Itoa (PriceRequest.Infants req))
  ++ opt (bool_decide (PriceRequest.Limit req ≠ 0))
         "limit" (Strconv.Itoa (PriceRequest.Limit req))
  ++ [("location", PriceRequest.Location req)]
  ++ opt (bool_decide (PriceRequest.LocationID req ≠ 0))
         "locationId" (Strconv.Itoa (PriceRequest.LocationID req)).

(** ** Signed parameter lists *)

(** What a list of parameters contributes to the source string of the
    signature: a colon and the value, for each parameter in turn. *)
Definition concat_values (l : list (string * string)) : string :=
  foldr (fun p acc => ":" +:+ p.2 +:+ acc) "" l.

(** The signature of a list of parameters for a client: the MD5 digest, in
    hex, of [token:marker] followed by the values. *)
Definition signature_of (this : API) (l : list (string * string)) : string :=
  md5_hex (token this +:+ ":" +:+ Strconv.Itoa (marker this) +:+ concat_values l).

(** The entries of a map of parameters, in ascending key order. *)
Definition entries (m : gmap string string) : list (string * string) :=
  (fun k => (k, default "" (m !! k))) <$> Sort (URL.keys m).

(** The parameters of [Search] in ascending key order, with [credentials]
    at the place where the keys [marker] and [signature] belong. *)
Definition Search_list (ToUpper : string → string) (req : SearchRequest.t)
    (credentials : list (string * string)) : list (string * string) :=
  [("adultsCount", Strconv.Itoa (SearchRequest.AdultsCount req));
   ("checkIn", SearchRequest.CheckIn req);
   ("checkOut", SearchRequest.CheckOut req)]
  ++ opt (bool_decide (SearchRequest.ChildrenCount req ≠ 0))
         "childAge1" (Strconv.Itoa (SearchRequest.ChildAges req).1.1)
  ++ opt (bool_decide (1 < SearchRequest.ChildrenCount req))
         "childAge2" (Strconv.Itoa (SearchRequest.ChildAges req).1.2)
  ++ opt (bool_decide (SearchRequest.ChildrenCount req = 3))
         "childAge3" (Strconv.Itoa (SearchRequest.ChildAges req).2)
  ++ [("childrenCount", Strconv.Itoa (SearchRequest.ChildrenCount req));
      ("cityId", Strconv.Itoa (SearchRequest.CityID req));
      ("currency", ToUpper (SearchRequest.Currency req));
      ("customerIp", SearchRequest.CustomerIp req)]
  ++ opt (bool_decide (SearchRequest.HotelID req ≠ 0))
         "hotelId" (Strconv.Itoa (SearchRequest.HotelID req))
  ++ opt (bool_decide (SearchRequest.IATA req ≠ ""))
         "iata" (SearchRequest.IATA req)
  ++ [("lang", SearchRequest.Lang req)]
  ++ credentials
  ++ opt (bool_decide (SearchRequest.WaitForResult req ≠ 0))
         "waitForResult" (Strconv.Itoa (SearchRequest.WaitForResult req)).

(** The parameters of [FetchSearchResults] in ascending key order, with
    [mark] and [sign] at the places where the keys [marker] and [signature]
    belong. *)
Definition Results_list (req : SearchResultsRequest.t)
    (mark sign : list (string * string)) : list (string * string) :=
  opt (bool_decide (SearchResultsRequest.Limit req ≠ 0))
      "limit" (Strconv.Itoa (SearchResultsRequest.Limit req))
  ++ mark
  ++ opt (bool_decide (SearchResultsRequest.Offset req ≠ 0))
         "offset" (Strconv.Itoa (SearchResultsRequest.Offset req))
  ++ opt (bool_decide (SearchResultsRequest.RoomsCount req ≠ 0))
         "roomsCount" (Strconv.Itoa (SearchResultsRequest.RoomsCount req))
  ++ [("searchId", Strconv.Itoa (SearchResultsRequest.SearchID req))]
  ++ sign
  ++ opt (bool_decide (SearchResultsRequest.SortAsc req = -1)) "sortAsc" "0"
  ++ opt (bool_decide (SearchResultsRequest.SortBy req ≠ ""))
         "sortBy" (SearchResultsRequest.SortBy req).

(** The query string of a request without parameters. *)
Definition credentials_query (this : API) : string :=
  "marker=" +:+ Strconv.Itoa (marker this) +:+ "&signature="
    +:+ md5_hex (token this +:+ ":" +:+ Strconv.Itoa (marker this)).

(** ** Clients of the package *)

(** The clients a program can obtain through the package's functions:
    made by [NewAPI], then given a token or updated from a response any
    number of times. *)
Inductive made_by_NewAPI : API → Prop :=
| made_new (m : Z) (this : API) : NewAPI m = Some this → made_by_NewAPI this
| made_token (this : API) (tok : string) :
    made_by_NewAPI this → made_by_NewAPI (SetToken this tok)
| made_update (this : API) (r : Response) :
    made_by_NewAPI this → made_by_NewAPI (updateRemains this r).

(** A response whose rate-limit headers carry the given values. *)
Definition counted (remaining limit : list string) : Response :=
  {| Header := <["X-Ratelimit-Remaining" := remaining]>
                 (<["X-Ratelimit-Limit" := limit]> ∅);
     Body := "" |}.

(** ** What a call returns *)

Section CallResults.

Context {LookupResponse PriceResponse Countries_t Cities_t Amenity
         HotelList RoomTypes_t SearchResults : Type}.
Context `{!Zero LookupResponse, !JSON LookupResponse}.
Context `{!Zero PriceResponse, !JSON (list PriceResponse)}.
Context `{!Zero Countries_t, !JSON (list Countries_t)}.
Context `{!Zero Cities_t, !JSON (list Cities_t)}.
Context `{!Zero Amenity, !JSON (list Amenity)}.
Context `{!Zero HotelList, !JSON HotelList}.
Context `{!Zero RoomTypes_t, !JSON RoomTypes_t}.
Context `{!Zero SearchResults, !JSON SearchResults}.
Context `{!JSON SearchStart}.
Variable IP_String : list Z → string.
Variable ToUpper : string → string.
Variable max_PriceResponses : Z.

(** The body is one the decoder of the call's response type rejects. *)
Definition call_undecodable (c : Call) (body msg : string) : Prop :=
  match c with
  | CallLookup _ => undecodable LookupResponse body msg
  | CallPrice _ => undecodable (list PriceResponse) body msg
  | CallCountries => undecodable (list Countries_t) body msg
  | CallCities => undecodable (list Cities_t) body msg
  | CallAmenities => undecodable (list Amenity) body msg
  | CallFetchHotelList _ => undecodable HotelList body msg
  | CallRoomTypes => undecodable RoomTypes_t body msg
  | CallSearch _ => undecodable SearchStart body msg
  | CallFetchSearchResults _ => undecodable SearchResults body msg
  end.

(** The call returned the error [e] beside a value without data: nil, a
    pointer to a zero struct, or 0, as the [return] statements of the
    method have it. *)
Definition returned_blank (c : Call) (this : API) (w : World) (e : error)
  : Prop :=
  match c with
  | CallLookup req =>
      (run w (Lookup (LookupResponse := LookupResponse) this req)).1
      = Returned (Some zero, Some e)
  | CallPrice req =>
      (run w (Price (PriceResponse := PriceResponse)
                IP_String max_PriceResponses this req)).1
      = Returned (None, Some e)
  | CallCountries =>
      (run w (Countries (Countries_t := Countries_t) this)).1
      = Returned (None, Some e)
  | CallCities =>
      (run w (Cities (Cities_t := Cities_t) this)).1 = Returned (None, Some e)
  | CallAmenities =>
      (run w (Amenities (Amenity := Amenity) this)).1 = Returned ([], Some e)
  | CallFetchHotelList locationId =>
      (run w (FetchHotelList (HotelList := HotelList) this locationId)).1
      = Returned (if bool_decide (checkAccess this = None)
                  then Some zero else None, Some e)
  | CallRoomTypes =>
      (run w (RoomTypes (RoomTypes_t := RoomTypes_t) this)).1
      = Returned (None, Some e)
  | CallSearch req =>
      (run w (Search ToUpper this req)).1 = Returned (0, Some e)
  | CallFetchSearchResults req =>
      (run w (FetchSearchResults (SearchResults := SearchResults) this req)).1
      = Returned (if bool_decide (SearchResultsRequest.SearchID req = 0)
                  then None else Some zero, Some e)
  end.

End CallResults.

Section CallDecoding.

Context {LookupResponse PriceResponse Countries_t Cities_t Amenity
         HotelList RoomTypes_t SearchResults : Type}.
Context `{!Zero LookupResponse, !JSON LookupResponse}.
Context `{!Zero PriceResponse, !JSON (list PriceResponse)}.
Context `{!Zero Countries_t, !JSON (list Countries_t)}.
Context `{!Zero Cities_t, !JSON (list Cities_t)}.
Context `{!Zero Amenity, !JSON (list Amenity)}.
Context `{!Zero HotelList, !JSON HotelList}.
Context `{!Zero RoomTypes_t, !JSON RoomTypes_t}.
Context `{!Zero SearchResults, !JSON SearchResults}.
Context `{!JSON SearchStart}.
Variable max_PriceResponses : Z.

(** The decoder of the call's response type accepts the body, decoding
    into the value the method hands it: a zero struct, or a slice of one
    zero element ([Countries], [Amenities]), of two ([Cities]), or of as
    many as the limit ([Price], when it can be allocated). *)
Definition call_decodes (c : Call) (body : string) : Prop :=
  match c with
  | CallLookup _ => (Decode body (zero : LookupResponse)).2 = None
  | CallPrice req =>
      ∃ init : list PriceResponse,
        make_slice max_PriceResponses (Price_limit req) = Some init
        ∧ (Decode body init).2 = None
  | CallCountries => (Decode body (replicate 1 (zero : Countries_t))).2 = None
  | CallCities => (Decode body (replicate 2 (zero : Cities_t))).2 = None
  | CallAmenities => (Decode body (replicate 1 (zero : Amenity))).2 = None
  | CallFetchHotelList _ => (Decode body (zero : HotelList)).2 = None
  | CallRoomTypes => (Decode body (zero : RoomTypes_t)).2 = None
  | CallSearch _ => (Decode body (zero : SearchStart)).2 = None
  | CallFetchSearchResults _ => (Decode body (zero : SearchResults)).2 = None
  end.

End CallDecoding.

(** ** Stand-ins to run every method

    Decoders for the remaining response types, in the manner of [Raw]: a
    list decodes from a body that opens with a bracket, the answer of
    [Search] from one that opens with a brace.  The address is printed in
    dotted decimal and [ToUpper] maps the ASCII letters. *)

Module Sample.

Definition decode_list (body : string) (init : list Raw.t)
  : list Raw.t * option string :=
  match body with
  | String c _ =>
      if bool_decide (c = "["%char) then ([body], None)
      else (init, Some "json: cannot unmarshal into Go value of type []")
  | EmptyString => (init, Some "EOF")
  end.

Definition json_list : JSON (list Raw.t) := {| Decode := decode_list |}.

Definition decode_start (body : string) (init : SearchStart)
  : SearchStart * option string :=
  match body with
  | String c _ =>
      if bool_decide (c = "{"%char)
      then ({| SearchID := 4034914; Status := "ok" |}, None)
      else (init, Some "invalid character looking for beginning of value")
  | EmptyString => (init, Some "EOF")
  end.

Definition json_start : JSON SearchStart := {| Decode := decode_start |}.

Definition IP_String (ip : list Z) : string :=
  String.concat "." (Strconv.Itoa <$> ip).

Definition upper (c : ascii) : ascii :=
  if (97 <=? Strconv.code c) && (Strconv.code c <=? 122)
  then Bytes.to_ascii (Strconv.code c - 32) else c.

Fixpoint ToUpper (s : string) : string :=
  match s with
  | EmptyString => EmptyString
  | String c s' => String (upper c) (ToUpper s')
  end.

Definition max_PriceResponses : Z := 2 ^ 40.

(** A world whose network answers every request with [r]. *)
Definition answering (r : Response) : World :=
  {| net := fun _ => GetOK r; disk := fun _ => "" |}.

(** The error page of a server, which no decoder accepts. *)
Definition error_page : Response :=
  {| Header := ∅; Body := "<html>403 Forbidden</html>" |}.

Definition trace : Call → API → World → list Event :=
  @call_trace Raw.t Raw.t Raw.t Raw.t Raw.t Raw.t Raw.t Raw.t
    Raw.zero_t Raw.json_t Raw.zero_t json_list Raw.zero_t json_list
    Raw.zero_t json_list Raw.zero_t json_list Raw.zero_t Raw.json_t
    Raw.zero_t Raw.json_t Raw.zero_t Raw.json_t json_start
    IP_String ToUpper max_PriceResponses.

Definition outcome : Call → API → World → option (option error) :=
  @call_error Raw.t Raw.t Raw.t Raw.t Raw.t Raw.t Raw.t Raw.t
    Raw.zero_t Raw.json_t Raw.zero_t json_list Raw.zero_t json_list
    Raw.zero_t json_list Raw.zero_t json_list Raw.zero_t Raw.json_t
    Raw.zero_t Raw.json_t Raw.zero_t Raw.json_t json_start
    IP_String ToUpper max_PriceResponses.

Definition search_request : SearchRequest.t :=
  {| SearchRequest.CityID := 12153;
     SearchRequest.HotelID := 0;
     SearchRequest.IATA := "";
     SearchRequest.CheckIn := "2016-12-10";
     SearchRequest.CheckOut := "2016-12-17";
     SearchRequest.AdultsCount := 2;
     SearchRequest.ChildrenCount := 5;
     SearchRequest.ChildAges := (4, 7, 9);
     SearchRequest.CustomerIp := "127.0.0.1";
     SearchRequest.Currency := "rub";
     SearchRequest.Lang := "ru";
     SearchRequest.WaitForResult := 0 |}.

Definition results_request (id : Z) : SearchResultsRequest.t :=
  {| SearchResultsRequest.SearchID := id;
     SearchResultsRequest.Limit := 10;
     SearchResultsRequest.Offset := 0;
     SearchResultsRequest.SortBy := "price";
     SearchResultsRequest.SortAsc := -1;
     SearchResultsRequest.RoomsCount := 0 |}.

Definition price_request : PriceRequest.t :=
  {| PriceRequest.Location := "MOW";
     PriceRequest.CheckIn := "2016-12-10";
     PriceRequest.CheckOut := "2016-12-17";
     PriceRequest.Currency := "rub";
     PriceRequest.LocationID := 0;
     PriceRequest.HotelID := 0;
     PriceRequest.Hotel := "";
     PriceRequest.Adults := 0;
     PriceRequest.Children := 0;
     PriceRequest.Infants := 0;
     PriceRequest.Limit := 0;
     PriceRequest.CustomerIP := [127; 0; 0; 1] |}.

End Sample.

(** * Properties *)

(** ** Strings *)

(** [String.append] is kept folded by [simpl]; this unfolds one step. *)
Ltac app_step := unfold String.append; fold String.append.

Lemma string_app_assoc (s1 s2 s3 : string) :
  (s1 +:+ s2) +:+ s3 = s1 +:+ (s2 +:+ s3).
Proof. induction s1 as [|c s1 IH]; app_step; [done|]. by rewrite IH. Qed.

Lemma string_app_nil_r (s : string) : s +:+ "" = s.
Proof. induction s as [|c s IH]; app_step; [done|]. by rewrite IH. Qed.

Lemma string_length_app (s1 s2 : string) :
  String.length (s1 +:+ s2) = (String.length s1 + String.length s2)%nat.
Proof. induction s1 as [|c s1 IH]; app_step; simpl; [done|]. by rewrite IH. Qed.

Lemma string_forall_app P s1 s2 :
  string_forall P s1 → string_forall P s2 → string_forall P (s1 +:+ s2).
Proof. induction s1; app_step; simpl; [done|]. intros [? ?] ?. auto. Qed.

(** ** Sorting *)

Lemma Sort_Permutation (ks : list string) : Sort ks ≡ₚ ks.
Proof. apply merge_sort_Permutation. Qed.

Lemma Sort_Sorted (ks : list string) : Sorted String.le (Sort ks).
Proof. apply (Sorted_merge_sort String.le). Qed.

(** The sorted arrangement of a slice is unique: two slices with the same
    elements sort to the same slice. *)
Lemma Sort_unique (ks1 ks2 : list string) : ks1 ≡ₚ ks2 → Sort ks1 = Sort ks2.
Proof.
  intros Hperm.
  apply (Sorted_unique String.le); try apply Sort_Sorted.
  by rewrite !Sort_Permutation.
Qed.

Lemma Sort_sorted (ks : list string) : Sorted String.le ks → Sort ks = ks.
Proof.
  intros Hs.
  apply (Sorted_unique String.le); [apply Sort_Sorted|done|apply Sort_Permutation].
Qed.

Lemma elem_of_Sort (ks : list string) (k : string) : k ∈ Sort ks ↔ k ∈ ks.
Proof. by rewrite Sort_Permutation. Qed.

(** ** Query strings *)

Lemma segment_nonempty p : (0 < String.length (Query.segment p))%nat.
Proof.
  unfold Query.segment. rewrite !string_length_app. simpl. lia.
Qed.

Lemma join_snoc (l : list string) (s : string) :
  Query.join (l ++ [s]) =
  match l with [] => s | _ => Query.join l +:+ "&" +:+ s end.
Proof.
  induction l as [|a l IH]; [done|].
  destruct l as [|b l]; [done|].
  change (Query.join ((a :: b :: l) ++ [s]))
    with (a +:+ "&" +:+ Query.join ((b :: l) ++ [s])).
  rewrite IH. change (Query.join (a :: b :: l)) with (a +:+ "&" +:+ Query.join (b :: l)).
  by rewrite !string_app_assoc.
Qed.

Lemma join_length_pos (l : list string) :
  l ≠ [] → Forall (fun s => 0 < String.length s)%nat l →
  (0 < String.length (Query.join l))%nat.
Proof.
  destruct l as [|a l]; [done|]. intros _ Hall.
  apply Forall_cons in Hall as [Ha _].
  destruct l; simpl; [done|]. rewrite string_length_app. lia.
Qed.

Lemma encode_empty_length ps :
  (0 < String.length (Query.encode ps))%nat ↔ ps ≠ [].
Proof.
  split.
  - intros Hlen ->. simpl in Hlen. lia.
  - intros Hne. apply join_length_pos.
    + by destruct ps.
    + apply Forall_fmap, Forall_forall. intros p _. apply segment_nonempty.
Qed.

(** Writing one more pair into the buffer extends the encoded list. *)
Lemma write_pair_encode ps k x :
  URL.write_pair k (Query.encode ps) x = Query.encode (ps ++ [(k, x)]).
Proof.
  unfold URL.write_pair, Query.encode. rewrite fmap_app. simpl.
  rewrite join_snoc.
  destruct ps as [|p ps]; [done|].
  rewrite bool_decide_eq_true_2.
  - by rewrite !string_app_assoc.
  - by apply (encode_empty_length (p :: ps)).
Qed.

Lemma write_pairs_encode ps k xs :
  foldl (URL.write_pair k) (Query.encode ps) xs
  = Query.encode (ps ++ (pair k <$> xs)).
Proof.
  revert ps. induction xs as [|x xs IH]; intros ps; simpl.
  - by rewrite app_nil_r.
  - rewrite write_pair_encode, IH. by rewrite <- app_assoc.
Qed.

Lemma write_keys_encode (v : URL.Values) ps (l : list string) :
  foldl (fun buf k => foldl (URL.write_pair k) buf (default [] (v !! k)))
        (Query.encode ps) l
  = Query.encode (ps ++ Query.pairs_of v l).
Proof.
  revert ps. induction l as [|k l IH]; intros ps.
  - by rewrite app_nil_r.
  - simpl. rewrite write_pairs_encode, IH. unfold Query.pairs_of. simpl.
    by rewrite <- app_assoc.
Qed.

(** [Encode] writes the parameters of the map, keys sorted, each key's
    values in the order they were added. *)
Lemma Encode_ranged_pairs (ks : list string) (v : URL.Values) :
  URL.Encode_ranged ks v = Query.encode (Query.pairs_of v (Sort ks)).
Proof. apply (write_keys_encode v []). Qed.

Lemma Encode_pairs (v : URL.Values) : URL.Encode v = Query.encode (Query.pairs v).
Proof. apply Encode_ranged_pairs. Qed.

(** Whatever order [range] takes inside [Encode], the result is the same. *)
Lemma Encode_range_irrelevant (ks : list string) (v : URL.Values) :
  ranges v ks → URL.Encode_ranged ks v = URL.Encode v.
Proof.
  intros Hr. unfold URL.Encode, URL.Encode_ranged. by rewrite (Sort_unique _ _ Hr).
Qed.

Lemma elem_of_keys {V} (m : gmap string V) (k : string) :
  k ∈ URL.keys m ↔ is_Some (m !! k).
Proof.
  unfold URL.keys. rewrite list_elem_of_fmap. split.
  - intros [[k' x] [-> Hin]]. apply elem_of_map_to_list in Hin. by exists x.
  - intros [x Hx]. exists (k, x). split; [done|]. by apply elem_of_map_to_list.
Qed.

Lemma elem_of_pairs_of (v : URL.Values) (ks : list string) (k x : string) :
  (k, x) ∈ Query.pairs_of v ks ↔ k ∈ ks ∧ holds v k x.
Proof.
  unfold Query.pairs_of, holds. rewrite list_elem_of_bind. split.
  - intros (k' & Hin & Hk'). apply list_elem_of_fmap in Hin as (x' & Heq & Hx).
    assert (k' = k ∧ x' = x) as [-> ->] by (by injection Heq).
    split; [done|]. destruct (v !! k) as [xs|]; [|by apply elem_of_nil in Hx].
    by exists xs.
  - intros [Hk (xs & Hv & Hx)]. exists k. split; [|done].
    rewrite Hv. simpl. apply list_elem_of_fmap. by exists x.
Qed.

(** The parameters [Encode] writes are exactly those the map holds. *)
Lemma elem_of_pairs (v : URL.Values) (k x : string) :
  (k, x) ∈ Query.pairs v ↔ holds v k x.
Proof.
  unfold Query.pairs. rewrite elem_of_pairs_of, elem_of_Sort, elem_of_keys.
  split; [by intros [_ ?]|]. intros Hh. split; [|done].
  destruct Hh as (xs & -> & _). by eexists.
Qed.

Lemma lookup_Add (k x : string) (v : URL.Values) (k' : string) :
  URL.Add k x v !! k' =
  if decide (k = k') then Some (default [] (v !! k) ++ [x]) else v !! k'.
Proof. unfold URL.Add. apply lookup_insert. Qed.

Lemma lookup_Add_ne (k x : string) (v : URL.Values) (k' : string) :
  k ≠ k' → URL.Add k x v !! k' = v !! k'.
Proof. intros. rewrite lookup_Add. by rewrite decide_False. Qed.

Lemma holds_empty (k x : string) : ¬ holds ∅ k x.
Proof. intros (xs & Hl & _). by rewrite lookup_empty in Hl. Qed.

Lemma holds_Add (k' x' : string) (v : URL.Values) (k x : string) :
  holds (URL.Add k' x' v) k x ↔ holds v k x ∨ (k = k' ∧ x = x').
Proof.
  unfold holds. rewrite lookup_Add. destruct (decide (k' = k)) as [->|Hne].
  - split.
    + intros (xs & [= <-] & Hx). apply elem_of_app in Hx as [Hx|Hx].
      * left. destruct (v !! k) as [ys|]; [by exists ys|by apply elem_of_nil in Hx].
      * right. by apply list_elem_of_singleton in Hx.
    + intros [(xs & Hv & Hx)|[_ ->]]; eexists; (split; [done|]);
        rewrite ?Hv; apply elem_of_app; [by left|right; apply list_elem_of_singleton; done].
  - split; [by left|]. intros [?|[? _]]; [done|congruence].
Qed.

(** ** Reading a query string back *)

Lemma hex_roundtrip (c : ascii) :
  Parse.hex_value (Hex.digit Hex.upperhex (Z.shiftr (Strconv.code c) 4))
    = Some (Z.shiftr (Strconv.code c) 4)
  ∧ Parse.hex_value (Hex.digit Hex.upperhex (Z.land (Strconv.code c) 15))
    = Some (Z.land (Strconv.code c) 15)
  ∧ Bytes.to_ascii (16 * Z.shiftr (Strconv.code c) 4 + Z.land (Strconv.code c) 15)
    = c.
Proof. destruct c as [[] [] [] [] [] [] [] []]; by vm_compute. Qed.

Lemma unreserved_plain (c : ascii) :
  unreserved c →
  c ≠ "%"%char ∧ c ≠ "+"%char ∧ c ≠ "&"%char ∧ c ≠ "="%char.
Proof. intros Hc. repeat split; by intros ->. Qed.

Lemma unescape_QueryEscape (s : string) :
  Parse.unescape (URL.QueryEscape s) = Some s.
Proof.
  induction s as [|c s IH]; [done|]. simpl URL.QueryEscape.
  case_bool_decide as Hsp.
  - subst c. simpl. by rewrite IH.
  - destruct (URL.shouldEscape c) eqn:Hesc.
    + destruct (hex_roundtrip c) as (Hhi & Hlo & Hc).
      simpl. rewrite Hhi, Hlo, IH. simpl. by rewrite Hc.
    + destruct (unreserved_plain c Hesc) as (Hpc & Hpl & _).
      simpl. rewrite !bool_decide_eq_false_2 by done. by rewrite IH.
Qed.

Lemma upperhex_digit_plain (n : Z) :
  Hex.digit Hex.upperhex n ≠ "&"%char ∧ Hex.digit Hex.upperhex n ≠ "="%char.
Proof.
  unfold Hex.digit, Hex.upperhex.
  destruct (Z.to_nat n) as [|k]; [done|].
  do 15 (destruct k as [|k]; [done|]). by destruct k.
Qed.

Lemma QueryEscape_free (s : string) :
  free_of "&"%char (URL.QueryEscape s) ∧ free_of "="%char (URL.QueryEscape s).
Proof.
  unfold free_of. induction s as [|c s [IHa IHe]]; [done|]. simpl URL.QueryEscape.
  case_bool_decide as Hsp; [done|].
  destruct (URL.shouldEscape c) eqn:Hesc.
  - pose proof (upperhex_digit_plain (Z.shiftr (Strconv.code c) 4)) as [? ?].
    pose proof (upperhex_digit_plain (Z.land (Strconv.code c) 15)) as [? ?].
    by simpl.
  - destruct (unreserved_plain c Hesc) as (_ & _ & ? & ?). by simpl.
Qed.

Lemma free_of_app sep s1 s2 :
  free_of sep s1 → free_of sep s2 → free_of sep (s1 +:+ s2).
Proof. apply string_forall_app. Qed.

Lemma cut_free (sep : ascii) (s1 s2 : string) :
  free_of sep s1 →
  Parse.cut sep (s1 +:+ String sep s2) = (s1, Some s2).
Proof.
  induction s1 as [|c s1 IH]; app_step; simpl.
  - intros _. by rewrite bool_decide_eq_true_2.
  - intros [Hc Hs]. rewrite bool_decide_eq_false_2 by done. by rewrite IH.
Qed.

Lemma parse_segment (p : string * string) :
  Parse.segment (Query.segment p) = Some p.
Proof.
  destruct p as [k x]. unfold Parse.segment, Query.segment. simpl.
  change ("=" +:+ URL.QueryEscape x) with (String "="%char (URL.QueryEscape x)).
  rewrite cut_free by apply QueryEscape_free. simpl.
  by rewrite !unescape_QueryEscape.
Qed.

Lemma segment_free (p : string * string) : free_of "&"%char (Query.segment p).
Proof.
  unfold Query.segment.
  apply free_of_app; [apply QueryEscape_free|].
  apply free_of_app; [done|apply QueryEscape_free].
Qed.

Lemma split_free (sep : ascii) (s : string) :
  free_of sep s → Parse.split sep s = [s].
Proof.
  induction s as [|c s IH]; simpl; [done|]. intros [Hc Hs].
  rewrite bool_decide_eq_false_2 by done. by rewrite IH.
Qed.

Lemma split_app (sep : ascii) (s1 s2 : string) :
  free_of sep s1 →
  Parse.split sep (s1 +:+ String sep s2) = s1 :: Parse.split sep s2.
Proof.
  induction s1 as [|c s1 IH]; app_step; simpl.
  - intros _. by rewrite bool_decide_eq_true_2.
  - intros [Hc Hs]. rewrite bool_decide_eq_false_2 by done. by rewrite IH.
Qed.

Lemma split_join (l : list string) :
  l ≠ [] → Forall (free_of "&"%char) l →
  Parse.split "&"%char (Query.join l) = l.
Proof.
  induction l as [|s l IH]; [done|]. intros _ Hall.
  apply Forall_cons in Hall as [Hs Hl].
  destruct l as [|s' l].
  - by apply split_free.
  - change (Query.join (s :: s' :: l))
      with (s +:+ String "&"%char (Query.join (s' :: l))).
    rewrite split_app by done. by rewrite IH.
Qed.

Lemma filter_all {A} (P : A → Prop) `{∀ x, Decision (P x)} (l : list A) :
  Forall P l → filter P l = l.
Proof.
  induction 1 as [|x l Hx Hl IH]; [done|].
  by rewrite filter_cons_True, IH.
Qed.

(** Parsing an encoded parameter list gives the list back. *)
Lemma parse_encode (ps : list (string * string)) :
  Parse.query (Query.encode ps) = Some ps.
Proof.
  unfold Parse.query, Query.encode.
  destruct ps as [|p ps]; [done|].
  rewrite split_join; [|done|].
  - rewrite filter_all.
    + apply mapM_Some. rewrite Forall2_fmap_l.
      apply Forall_Forall2_diag, Forall_forall. intros q _. apply parse_segment.
    + apply Forall_fmap, Forall_forall. intros q _ Heq.
      pose proof (segment_nonempty q) as Hlen. simpl in Heq.
      rewrite Heq in Hlen. simpl in Hlen. lia.
  - apply Forall_fmap, Forall_forall. intros q _. apply segment_free.
Qed.

(** ** The signing loop *)

Lemma sign_fold_src (m : gmap string string) (ks : list string) src v :
  (foldl (sign_param m) (src, v) ks).1 = src +:+ values_tail m ks.
Proof.
  revert src v. induction ks as [|k ks IH]; intros src v; simpl.
  - by rewrite string_app_nil_r.
  - unfold sign_param at 2. simpl. rewrite IH. by rewrite !string_app_assoc.
Qed.

Lemma sign_fold_holds (m : gmap string string) (ks : list string) src v k x :
  holds (foldl (sign_param m) (src, v) ks).2 k x
  ↔ holds v k x ∨ (k ∈ ks ∧ x = default "" (m !! k)).
Proof.
  revert src v. induction ks as [|k' ks IH]; intros src v; simpl.
  - split; [by left|]. intros [?|[Hk _]]; [done|]. by apply elem_of_nil in Hk.
  - unfold sign_param at 2. simpl. rewrite IH, holds_Add, elem_of_cons.
    split.
    + intros [[?|[-> ->]]|[? ->]]; auto.
    + intros [?|[[->|?] ->]]; auto.
Qed.

(** For the keys [range] yields, the looked-up value is the stored one. *)
Lemma ranged_value (m : gmap string string) (order : list string) k x :
  ranges m order →
  (k ∈ Sort order ∧ x = default "" (m !! k)) ↔ m !! k = Some x.
Proof.
  intros Hr. rewrite elem_of_Sort, Hr, elem_of_keys. split.
  - intros [[y Hy] ->]. by rewrite Hy.
  - intros Hx. rewrite Hx. eauto.
Qed.

(** ** The digest and its hex form *)

(** The digests of the test suite of RFC 1321, one, two and three blocks
    long after padding. *)
Example MD5_test_suite :
  md5_hex "" = "d41d8cd98f00b204e9800998ecf8427e"
  ∧ md5_hex "a" = "0cc175b9c0f1b6a831c399e269772661"
  ∧ md5_hex "abc" = "900150983cd24fb0d6963f7d28e17f72"
  ∧ md5_hex "message digest" = "f96b697d7cb7938d525a2f31aaf161d0"
  ∧ md5_hex "abcdefghijklmnopqrstuvwxyz" = "c3fcd3d76192e4007dfb496cca67e13b"
  ∧ md5_hex "12345678901234567890123456789012345678901234567890123456789012345678901234567890"
    = "57edf4a22be3c955ac49da2e2107b67a"
  ∧ md5_hex "ABCDEFGHIJKLMNOPQRSTUVWXYZabcdefghijklmnopqrstuvwxyz0123456789ABCDEFGHIJKLMNOPQRSTUVWXYZabcdefghijklmnopqrstuvwxyz0123456789ABCDEFGHIJKLMNOPQRSTUVWXYZabcdefghijklmnopqrstuvwxyz0123456789"
    = "a0842fcc02167127b0bb9a7c38e71ba8".
Proof. repeat split; vm_compute; reflexivity. Qed.

Lemma le_bytes_length (n : nat) (x : Z) : length (Bytes.le_bytes n x) = n.
Proof. revert x. induction n as [|n IH]; intros x; simpl; [done|]. by rewrite IH. Qed.

(** An MD5 digest is 128 bits: sixteen octets. *)
Lemma MD5_sum_length (msg : list Z) : length (MD5.sum msg) = 16%nat.
Proof.
  unfold MD5.sum.
  destruct (foldl MD5.block MD5.init _) as [[[a b] c] d].
  by rewrite !length_app, !le_bytes_length.
Qed.

Lemma hex_digit_lower (n : Z) : lower_hex (Hex.digit Hex.hextable n).
Proof.
  unfold Hex.digit, lower_hex.
  destruct (String.get (Z.to_nat n) Hex.hextable) as [c|] eqn:Hget.
  - by exists (Z.to_nat n).
  - by exists 0%nat.
Qed.

Lemma EncodeToString_lower (src : list Z) :
  string_forall lower_hex (Hex.EncodeToString src).
Proof.
  induction src as [|b src IH]; simpl; [done|].
  auto using hex_digit_lower.
Qed.

Lemma EncodeToString_length (src : list Z) :
  String.length (Hex.EncodeToString src) = (2 * length src)%nat.
Proof. induction src as [|b src IH]; simpl; [done|]. rewrite IH. lia. Qed.

Lemma md5_hex_shape (src : string) :
  String.length (md5_hex src) = 32%nat ∧ string_forall lower_hex (md5_hex src).
Proof.
  unfold md5_hex. split; [|apply EncodeToString_lower].
  by rewrite EncodeToString_length, MD5_sum_length.
Qed.

(** ** [withSignature] *)

(** The source string and the parameter set the method works with, once
    the loop over the sorted keys has run. *)
Lemma withSignature_ranged_unfold (this : API) (m : gmap string string)
    (order : list string) :
  let src0 := token this +:+ ":" +:+ Strconv.Itoa (marker this) in
  let acc := foldl (sign_param m) (src0, ∅) (Sort order) in
  withSignature_ranged this (Some m) order =
  URL.Encode
    (URL.Add "signature" (md5_hex acc.1)
       (URL.Add "marker" (Strconv.Itoa (marker this)) acc.2)).
Proof.
  intros src0 acc. unfold withSignature_ranged. fold src0. fold acc.
  by destruct acc as [src v].
Qed.

Lemma withSignature_nil_unfold (this : API) (order : list string) :
  withSignature_ranged this None order =
  URL.Encode
    (URL.Add "signature"
       (md5_hex (token this +:+ ":" +:+ Strconv.Itoa (marker this)))
       (URL.Add "marker" (Strconv.Itoa (marker this)) ∅)).
Proof. done. Qed.

(** The order [range] takes does not reach the result. *)
Lemma withSignature_ranged_order (this : API) params (order1 order2 : list string) :
  order1 ≡ₚ order2 →
  withSignature_ranged this params order1 = withSignature_ranged this params order2.
Proof.
  intros Hp. destruct params as [m|]; [|done].
  unfold withSignature_ranged. by rewrite (Sort_unique _ _ Hp).
Qed.

Lemma withSignature_ranges (this : API) (m : gmap string string) order :
  ranges m order →
  withSignature_ranged this (Some m) order = withSignature this (Some m).
Proof. intros Hr. by apply withSignature_ranged_order. Qed.

(** A nil map and an empty map sign alike. *)
Lemma withSignature_empty (this : API) :
  withSignature this (Some ∅) = withSignature this None.
Proof. done. Qed.

(** C1.  For every client (any token, any marker, zero or not), every
    parameter map (nil or not) and every order in which [range] may yield
    its keys: [withSignature] returns the URL-encoding of a list of
    parameters, which is also what parsing the returned string gives
    back, and that list holds exactly the input parameters,
    [marker=<marker>] and [signature=<hash>].  The hash is the MD5 digest,
    as 32 lower-case hex digits, of the source string [token:marker]
    followed by a colon and the value of each parameter, keys taken in
    ascending lexicographic order ([sorted] is any ascending list of the
    keys). *)
Theorem withSignature_spec (this : API) (params : option (gmap string string))
    (order sorted : list string) :
  let m := default ∅ params in
  ranges m order →
  Sorted String.le sorted → sorted ≡ₚ URL.keys m →
  let src := token this +:+ ":" +:+ Strconv.Itoa (marker this)
               +:+ values_tail m sorted in
  let sig := md5_hex src in
  String.length sig = 32%nat ∧ string_forall lower_hex sig ∧
  ∃ ps : list (string * string),
    withSignature_ranged this params order = Query.encode ps ∧
    Parse.query (withSignature_ranged this params order) = Some ps ∧
    ∀ k x, (k, x) ∈ ps ↔
           m !! k = Some x
           ∨ (k = "marker" ∧ x = Strconv.Itoa (marker this))
           ∨ (k = "signature" ∧ x = sig).
Proof.
  intros m Hr Hsorted Hkeys src sig.
  destruct (md5_hex_shape src) as [Hlen Hhex].
  split; [done|]. split; [done|].
  destruct params as [m'|]; simpl in m; subst m.
  - rewrite withSignature_ranged_unfold, Encode_pairs. eexists.
    split; [done|]. split; [apply parse_encode|].
    intros k x.
    rewrite elem_of_pairs, !holds_Add, sign_fold_holds, (ranged_value _ _ _ _ Hr).
    rewrite sign_fold_src.
    assert (Sort order = sorted) as ->.
    { rewrite <- (Sort_sorted sorted Hsorted). apply Sort_unique.
      by rewrite Hkeys. }
    subst sig src. rewrite !string_app_assoc.
    split.
    + intros [[[Hh|?]|?]|?]; auto. by apply holds_empty in Hh.
    + intros [?|[?|?]]; auto.
  - rewrite withSignature_nil_unfold, Encode_pairs. eexists.
    split; [done|]. split; [apply parse_encode|].
    intros k x. rewrite elem_of_pairs, !holds_Add.
    assert (sorted = []) as Hnil.
    { apply Permutation_nil. by rewrite Hkeys. }
    subst sig src. rewrite Hnil. simpl. rewrite string_app_nil_r, lookup_empty.
    split.
    + intros [[Hh|?]|?]; auto. by apply holds_empty in Hh.
    + intros [?|[?|?]]; auto. done.
Qed.

(** Closed instances of decidable side conditions. *)
Ltac by_decide :=
  match goal with |- ?P => apply (bool_decide_unpack P) end; vm_compute; exact I.

Lemma withSignature_spec_witness :
  let order := ["query"; "lang"; "limit"; "lookFor"] in
  let sorted := ["lang"; "limit"; "lookFor"; "query"] in
  (ranges test_params order ∧ Sorted String.le sorted
   ∧ sorted ≡ₚ URL.keys test_params)
  ∧ ∃ ps : list (string * string),
      withSignature_ranged test_api (Some test_params) order = Query.encode ps ∧
      Parse.query (withSignature_ranged test_api (Some test_params) order)
        = Some ps ∧
      ∀ k x, (k, x) ∈ ps ↔
             test_params !! k = Some x
             ∨ (k = "marker" ∧ x = "35290")
             ∨ (k = "signature" ∧ x = "7386867331120289e76303d286d1758b").
Proof.
  intros order sorted.
  assert (Hr : ranges test_params order) by (unfold ranges; by_decide).
  assert (Hs : Sorted String.le sorted) by by_decide.
  assert (Hk : sorted ≡ₚ URL.keys test_params) by by_decide.
  split; [done|].
  exact (proj2 (proj2
    (withSignature_spec test_api (Some test_params) order sorted Hr Hs Hk))).
Defined.

(** The second expectation of the package's signature test. *)
Example withSignature_test_params :
  withSignature test_api (Some test_params)
  = "lang=en&limit=1&lookFor=both&marker=35290&query=moscow&signature=7386867331120289e76303d286d1758b".
Proof. by vm_compute. Qed.

(** ** Insertion order *)

Lemma assign_all_list_to_map (l : list (string * string)) :
  assign_all l = list_to_map (reverse l).
Proof.
  unfold assign_all. induction l as [|[k x] l IH] using rev_ind; [done|].
  by rewrite foldl_app, reverse_snoc, IH.
Qed.

(** Assigning the same pairs, each key once, in another order builds the
    same map. *)
Lemma assign_all_Permutation (l1 l2 : list (string * string)) :
  NoDup l1.*1 → l1 ≡ₚ l2 → assign_all l1 = assign_all l2.
Proof.
  intros Hnd Hp. rewrite !assign_all_list_to_map.
  apply list_to_map_proper.
  - by rewrite reverse_Permutation.
  - by rewrite !reverse_Permutation.
Qed.

(** Two maps with the same contents sign alike, whatever orders [range]
    takes on them. *)
Lemma withSignature_same_content (this : API) (m1 m2 : gmap string string)
    (order1 order2 : list string) :
  (∀ k, m1 !! k = m2 !! k) →
  ranges m1 order1 → ranges m2 order2 →
  withSignature_ranged this (Some m1) order1
  = withSignature_ranged this (Some m2) order2.
Proof.
  intros Heq Hr1 Hr2. apply map_eq in Heq as ->.
  apply withSignature_ranged_order. by rewrite Hr1, Hr2.
Qed.

(** C4.  Two parameter maps built from the same key-value pairs (each key
    once) assigned in different orders give the same result, whatever
    order [range] then yields the keys of either map in. *)
Theorem withSignature_insertion_order (this : API)
    (l1 l2 : list (string * string)) (order1 order2 : list string) :
  NoDup l1.*1 → l1 ≡ₚ l2 →
  ranges (assign_all l1) order1 → ranges (assign_all l2) order2 →
  withSignature_ranged this (Some (assign_all l1)) order1
  = withSignature_ranged this (Some (assign_all l2)) order2.
Proof.
  intros Hnd Hp Hr1 Hr2.
  apply withSignature_same_content; [|done..].
  intros k. by rewrite (assign_all_Permutation l1 l2).
Qed.

Lemma withSignature_insertion_order_witness :
  let l1 := [("query", "moscow"); ("lang", "en"); ("limit", "1"); ("lookFor", "both")] in
  let l2 := [("lookFor", "both"); ("limit", "1"); ("query", "moscow"); ("lang", "en")] in
  let order1 := ["lang"; "query"; "lookFor"; "limit"] in
  let order2 := ["limit"; "lookFor"; "lang"; "query"] in
  (NoDup l1.*1 ∧ l1 ≡ₚ l2
   ∧ ranges (assign_all l1) order1 ∧ ranges (assign_all l2) order2)
  ∧ withSignature_ranged test_api (Some (assign_all l1)) order1
    = withSignature_ranged test_api (Some (assign_all l2)) order2.
Proof.
  intros l1 l2 order1 order2.
  assert (Hnd : NoDup l1.*1) by by_decide.
  assert (Hp : l1 ≡ₚ l2) by by_decide.
  assert (Hr1 : ranges (assign_all l1) order1) by (unfold ranges; by_decide).
  assert (Hr2 : ranges (assign_all l2) order2) by (unfold ranges; by_decide).
  split; [done|].
  exact (withSignature_insertion_order test_api l1 l2 order1 order2 Hnd Hp Hr1 Hr2).
Defined.

(** ** Escaping *)

Example QueryEscape_sample :
  URL.QueryEscape "a b&c=d/~-_.Z9:" = "a+b%26c%3Dd%2F~-_.Z9%3A".
Proof. reflexivity. Qed.

Example Itoa_samples :
  Strconv.Itoa 0 = "0" ∧ Strconv.Itoa 35290 = "35290" ∧ Strconv.Itoa (-7) = "-7"
  ∧ Strconv.Itoa Strconv.int_min = "-9223372036854775808".
Proof. repeat split; by vm_compute. Qed.

Example Atoi_samples :
  Strconv.Atoi "42" = (42, None)
  ∧ Strconv.Atoi "-42" = (-42, None)
  ∧ Strconv.Atoi "+7" = (7, None)
  ∧ Strconv.Atoi "" = (0, Some Strconv.ErrSyntax)
  ∧ Strconv.Atoi "4x" = (0, Some Strconv.ErrSyntax)
  ∧ Strconv.Atoi "9223372036854775808" = (Strconv.int_max, Some Strconv.ErrRange).
Proof. repeat split; by vm_compute. Qed.

Lemma QueryEscape_unreserved (s : string) :
  string_forall unreserved s → URL.QueryEscape s = s.
Proof.
  induction s as [|c s IH]; simpl; [done|]. intros [Hc Hs].
  rewrite (IH Hs). unfold unreserved in Hc.
  case_bool_decide as Hsp; [by subst c|]. by rewrite Hc.
Qed.

Lemma string_of_uint_unreserved (d : Decimal.uint) :
  string_forall unreserved (NilEmpty.string_of_uint d).
Proof. induction d; simpl; [done|split; [reflexivity|assumption]..]. Qed.

Lemma Itoa_unreserved (i : Z) : string_forall unreserved (Strconv.Itoa i).
Proof.
  assert (Hu : ∀ d, string_forall unreserved (NilZero.string_of_uint d)).
  { intros d. pose proof (string_of_uint_unreserved d) as Hd.
    destruct d; [by split|exact Hd..]. }
  unfold Strconv.Itoa. destruct (Z.to_int i) as [d|d]; simpl; [apply Hu|].
  split; [reflexivity|apply Hu].
Qed.

Lemma lower_hex_unreserved (c : ascii) : lower_hex c → unreserved c.
Proof.
  intros [n Hn]. unfold Hex.hextable in Hn.
  do 16 (destruct n as [|n]; [by injection Hn as <-|]).
  by destruct n.
Qed.

Lemma string_forall_impl (P Q : ascii → Prop) (s : string) :
  (∀ c, P c → Q c) → string_forall P s → string_forall Q s.
Proof. intros HPQ. induction s; simpl; [done|]. intros [? ?]. auto. Qed.

Lemma md5_hex_unreserved (src : string) : string_forall unreserved (md5_hex src).
Proof.
  eapply string_forall_impl; [apply lower_hex_unreserved|].
  apply md5_hex_shape.
Qed.

(** ** Signing without parameters *)

Lemma keys_insert {V} (m : gmap string V) (k : string) (x : V) :
  m !! k = None → URL.keys (<[k := x]> m) ≡ₚ k :: URL.keys m.
Proof. intros Hk. unfold URL.keys. by rewrite map_to_list_insert. Qed.

Lemma pairs_marker_signature (M S : string) :
  Query.pairs (URL.Add "signature" S (URL.Add "marker" M ∅))
  = [("marker", M); ("signature", S)].
Proof.
  unfold Query.pairs.
  assert (Sort (URL.keys (URL.Add "signature" S (URL.Add "marker" M ∅)))
          = ["marker"; "signature"]) as ->.
  { rewrite (Sort_unique _ ["signature"; "marker"]); [done|].
    unfold URL.Add at 1. rewrite keys_insert by by rewrite lookup_Add_ne.
    unfold URL.Add. rewrite keys_insert by apply lookup_empty. done. }
  assert (URL.Add "signature" S (URL.Add "marker" M ∅) !! "marker" = Some [M])
    as Hm by (by rewrite lookup_Add_ne, lookup_Add by done).
  assert (URL.Add "signature" S (URL.Add "marker" M ∅) !! "signature" = Some [S])
    as Hs by (by rewrite lookup_Add, decide_True, lookup_Add_ne by done).
  unfold Query.pairs_of. rewrite !bind_cons, Hm, Hs. done.
Qed.

Lemma withSignature_nil_string (this : API) :
  withSignature this None =
  "marker=" +:+ Strconv.Itoa (marker this) +:+ "&signature="
    +:+ md5_hex (token this +:+ ":" +:+ Strconv.Itoa (marker this)).
Proof.
  unfold withSignature. rewrite withSignature_nil_unfold, Encode_pairs.
  rewrite pairs_marker_signature.
  unfold Query.encode, Query.segment. simpl.
  rewrite (QueryEscape_unreserved _ (Itoa_unreserved _)).
  rewrite (QueryEscape_unreserved _ (md5_hex_unreserved _)).
  by rewrite !string_app_assoc.
Qed.

(** C3.  Without parameters (a nil map, or an empty one) the result is
    [marker=<marker>&signature=<hash>] where the hash is the lower-case hex
    MD5 digest of exactly [token:marker]; for the client of the package's
    test the whole string is the one the test expects. *)
Theorem withSignature_nil (this : API) :
  (withSignature this None =
     "marker=" +:+ Strconv.Itoa (marker this) +:+ "&signature="
       +:+ md5_hex (token this +:+ ":" +:+ Strconv.Itoa (marker this))
   ∧ withSignature this (Some ∅) = withSignature this None)
  ∧ (marker test_api = 35290 ∧ token test_api = "bqadagadoqadjmcocciox1grdvp3ag"
     ∧ withSignature test_api None
       = "marker=35290&signature=abdab6a981233bdaf156a5abc17cb382").
Proof.
  split; [split|].
  - apply withSignature_nil_string.
  - apply withSignature_empty.
  - split; [done|]. split; [done|]. by vm_compute.
Qed.

(** ** Construction and access *)

(** C8.  [NewAPI 0] is nil; for any other marker [m], negative ones
    included, [NewAPI m] is a client with marker [m], an empty token and
    zeroed counters, which the access gate refuses only for want of a
    token. *)
Theorem NewAPI_spec (m : Z) :
  m ≠ 0 →
  NewAPI 0 = None
  ∧ ∃ api, NewAPI m = Some api ∧ marker api = m ∧ token api = ""
           ∧ remains api = 0 ∧ limit api = 0
           ∧ ∀ tok, tok ≠ "" → checkAccess (SetToken api tok) = None.
Proof.
  intros Hm. split; [done|]. unfold NewAPI.
  rewrite (proj2 (Z.eqb_neq m 0) Hm). eexists. repeat split.
  intros tok Htok. unfold checkAccess, SetToken. simpl.
  rewrite bool_decide_eq_false_2 by done. by rewrite (proj2 (Z.eqb_neq m 0) Hm).
Qed.

Lemma NewAPI_spec_witness :
  -7 ≠ 0
  ∧ NewAPI 0 = None
  ∧ ∃ api, NewAPI (-7) = Some api ∧ marker api = -7 ∧ token api = ""
           ∧ remains api = 0 ∧ limit api = 0
           ∧ ∀ tok, tok ≠ "" → checkAccess (SetToken api tok) = None.
Proof.
  assert (Hm : -7 ≠ 0) by discriminate.
  split; [exact Hm|]. exact (NewAPI_spec (-7) Hm).
Defined.

Lemma checkAccess_spec (this : API) :
  checkAccess this = Some ErrNoAccess ↔ token this = "" ∨ marker this = 0.
Proof.
  unfold checkAccess. case_bool_decide as Ht; simpl.
  - by split; [left|].
  - destruct (Z.eqb_spec (marker this) 0) as [Hm|Hm].
    + by split; [right|].
    + split; [done|]. by intros [?|?].
Qed.

Lemma checkAccess_ok (this : API) :
  checkAccess this = None ↔ token this ≠ "" ∧ marker this ≠ 0.
Proof.
  unfold checkAccess. case_bool_decide as Ht; simpl.
  - split; [done|]. by intros [? _].
  - destruct (Z.eqb_spec (marker this) 0) as [Hm|Hm].
    + split; [done|]. by intros [_ ?].
    + by split.
Qed.

(** ** Rate-limit counters *)

(** C9.  Whatever the state of the client, in particular after any number
    of [updateRemains] on any responses and after the updates spawned by
    any run have finished, [RequestsRemains] and [RequestsLimit] return 0;
    and there are responses after which the stored counters are not 0, so
    the stored values are indeed not what the accessors show. *)
Theorem counters_hidden (this : API) (rs : list Response) (t : list Event) :
  (RequestsRemains (foldl updateRemains this rs) = 0
   ∧ RequestsLimit (foldl updateRemains this rs) = 0)
  ∧ (RequestsRemains (settle this t) = 0 ∧ RequestsLimit (settle this t) = 0)
  ∧ ∃ r, remains (updateRemains this r) = 42
         ∧ limit (updateRemains this r) = 100
         ∧ RequestsRemains (updateRemains this r) = 0
         ∧ RequestsLimit (updateRemains this r) = 0.
Proof.
  split; [done|]. split; [done|].
  exists {| Header := <["X-Ratelimit-Remaining" := ["42"]]>
                        (<["X-Ratelimit-Limit" := ["100"]]> ∅);
            Body := "" |}.
  by vm_compute.
Qed.

(** ** The endpoint methods *)

Lemma holds_cond_Add (b : bool) (k' x' : string) (v : URL.Values) (k x : string) :
  holds (if b then URL.Add k' x' v else v) k x
  ↔ holds v k x ∨ (b = true ∧ k = k' ∧ x = x').
Proof.
  destruct b.
  - rewrite holds_Add. split; intros [?|?]; auto. right. tauto.
  - split; [by left|]. by intros [?|[? _]].
Qed.

(** Running a program one event at a time. *)
Lemma run_get {A} (w : World) (url : string) (k : GetResult → IO A) :
  run w (res ← http_Get url; k res)
  = ((run w (k (net w url))).1, GET url :: (run w (k (net w url))).2).
Proof. cbn. by destruct (run w (k (net w url))). Qed.

Lemma run_go {A} (w : World) (r : Response) (k : IO A) :
  run w (go_updateRemains r;; k) = ((run w k).1, GO r :: (run w k).2).
Proof. cbn. by destruct (run w k). Qed.

Lemma run_read {A} (w : World) (path : string) (k : string → IO A) :
  run w (body ← ioutil_ReadFile path; k body)
  = ((run w (k (disk w path))).1, READ path :: (run w (k (disk w path))).2).
Proof. cbn. by destruct (run w (k (disk w path))). Qed.

Lemma run_ret {A} (w : World) (a : A) : run w (mret a) = (Returned a, []).
Proof. done. Qed.

Section EndpointProperties.

Context {LookupResponse PriceResponse Countries_t Cities_t Amenity
         HotelList RoomTypes_t SearchResults : Type}.
Context `{!Zero LookupResponse, !JSON LookupResponse}.
Context `{!Zero PriceResponse, !JSON (list PriceResponse)}.
Context `{!Zero Countries_t, !JSON (list Countries_t)}.
Context `{!Zero Cities_t, !JSON (list Cities_t)}.
Context `{!Zero Amenity, !JSON (list Amenity)}.
Context `{!Zero HotelList, !JSON HotelList}.
Context `{!Zero RoomTypes_t, !JSON RoomTypes_t}.
Context `{!Zero SearchResults, !JSON SearchResults}.
Context `{!JSON SearchStart}.
Variable IP_String : list Z → string.
Variable ToUpper : string → string.
Variable max_PriceResponses : Z.

(** The four methods that call the gate return its error at once: the
    program is a bare return, so running it in any world performs no
    event. *)
Lemma gated_methods_refuse (this : API) (locationId : string) (w : World) :
  token this = "" ∨ marker this = 0 →
  run w (Countries (Countries_t := Countries_t) this)
    = (Returned (None, Some ErrNoAccess), [])
  ∧ run w (Cities (Cities_t := Cities_t) this)
    = (Returned (None, Some ErrNoAccess), [])
  ∧ run w (Amenities (Amenity := Amenity) this)
    = (Returned ([], Some ErrNoAccess), [])
  ∧ run w (FetchHotelList (HotelList := HotelList) this locationId)
    = (Returned (None, Some ErrNoAccess), []).
Proof.
  intros Hno. apply checkAccess_spec in Hno.
  unfold Countries, Cities, Amenities, FetchHotelList. by rewrite Hno.
Qed.

(** What [RoomTypes] does, for every client and world: it performs the
    GET whatever [checkAccess] would say. *)
Lemma RoomTypes_run (this : API) (w : World) :
  let url := apiURL +:+ "static/roomTypes.json?" +:+ withSignature this None in
  run w (RoomTypes (RoomTypes_t := RoomTypes_t) this) =
  match net w url with
  | GetFailed msg => (Returned (None, Some (TransportError msg)), [GET url])
  | GetOK r =>
      match Decode (Body r) (zero : RoomTypes_t) with
      | (_, Some _) => (Returned (None, Some ErrNoAccess), [GET url; GO r])
      | (resp, None) => (Returned (Some resp, None), [GET url; GO r])
      end
  end.
Proof.
  intros url. unfold RoomTypes. cbv zeta. fold url. rewrite run_get.
  destruct (net w url) as [r|msg]; [|done].
  rewrite run_go. by destruct (Decode (Body r) zero) as [resp [e|]].
Qed.

(** C6.  With search identifier -1, whatever the other fields, the client
    and the world: [FetchSearchResults] reads [./test_data.json], decodes
    it, returns the decoded value with the decoder's error if any, and
    performs no other event; in particular no network call. *)
Theorem FetchSearchResults_fixture (this : API) (req : SearchResultsRequest.t)
    (w : World) :
  SearchResultsRequest.SearchID req = -1 →
  let decoded := Decode (disk w "./test_data.json") (zero : SearchResults) in
  run w (FetchSearchResults (SearchResults := SearchResults) this req)
    = (Returned (Some decoded.1, DecodeError <$> decoded.2),
       [READ "./test_data.json"])
  ∧ network_calls
      (run w (FetchSearchResults (SearchResults := SearchResults) this req)).2
    = [].
Proof.
  intros Hid decoded.
  assert (run w (FetchSearchResults (SearchResults := SearchResults) this req)
          = (Returned (Some decoded.1, DecodeError <$> decoded.2),
             [READ "./test_data.json"])) as Hrun.
  { unfold FetchSearchResults, FetchSearchResults_body. rewrite Hid.
    cbn [bool_decide decide_rel snd]. rewrite bool_decide_eq_false_2 by done.
    rewrite bool_decide_eq_true_2 by done. cbn [snd]. rewrite run_read.
    subst decoded. by destruct (Decode _ _) as [resp [msg|]]. }
  by rewrite Hrun.
Qed.

(** C7.  With search identifier 0, whatever the other fields and the
    client: the method returns [nil] and [ErrEmptySearchID], an error
    distinct from the other two package errors, while its parameter map is
    still empty, and running it in any world performs no event. *)
Theorem FetchSearchResults_empty_id (this : API) (req : SearchResultsRequest.t) :
  SearchResultsRequest.SearchID req = 0 →
  FetchSearchResults_body (SearchResults := SearchResults) this req
    = (∅, Ret (None, Some ErrEmptySearchID))
  ∧ (∀ w : World,
       run w (FetchSearchResults (SearchResults := SearchResults) this req)
       = (Returned (None, Some ErrEmptySearchID), []))
  ∧ ErrEmptySearchID ≠ ErrNoAccess ∧ ErrEmptySearchID ≠ ErrMissingParams.
Proof.
  intros Hid.
  assert (FetchSearchResults_body (SearchResults := SearchResults) this req
          = (∅, Ret (None, Some ErrEmptySearchID))) as Hbody.
  { unfold FetchSearchResults_body. by rewrite Hid. }
  split; [done|]. split; [|done].
  intros w. unfold FetchSearchResults. by rewrite Hbody.
Qed.

(** [Price] performs exactly one GET, of its endpoint followed by the
    encoded parameters, in every world and whatever happens next. *)
Lemma Price_network_calls (this : API) (req : PriceRequest.t) (w : World) :
  network_calls
    (run w (Price (PriceResponse := PriceResponse)
              IP_String max_PriceResponses this req)).2
  = [apiURL +:+ "cache.json?" +:+ URL.Encode (Price_values IP_String req)].
Proof.
  unfold Price. cbv zeta. rewrite run_get.
  destruct (net w _) as [r|msg]; [|done].
  rewrite run_go.
  destruct (make_slice _ _) as [resp|]; [|done].
  by destruct (Decode (Body r) resp) as [resp' [e|]].
Qed.

(** Under which keys [Price] files the hotel identifier. *)
Lemma Price_values_hotleId (req : PriceRequest.t) (x : string) :
  holds (Price_values IP_String req) "hotleId" x
  ↔ PriceRequest.HotelID req ≠ 0 ∧ x = Strconv.Itoa (PriceRequest.HotelID req).
Proof.
  unfold Price_values. cbv zeta.
  rewrite !holds_Add, !holds_cond_Add, !holds_Add.
  split.
  - intros Hh. repeat destruct Hh as [Hh|Hh];
      try (by apply holds_empty in Hh);
      try (by destruct Hh as [? ?]); try (by destruct Hh as (? & ? & ?)).
    destruct Hh as (Hb & _ & ->). by apply bool_decide_eq_true in Hb.
  - intros [Hid ->]. do 7 left. right. by rewrite bool_decide_eq_true.
Qed.

Lemma Price_values_hotelId (req : PriceRequest.t) (x : string) :
  ¬ holds (Price_values IP_String req) "hotelId" x.
Proof.
  unfold Price_values. cbv zeta.
  rewrite !holds_Add, !holds_cond_Add, !holds_Add.
  intros Hh. repeat destruct Hh as [Hh|Hh];
    try (by apply holds_empty in Hh);
    try (by destruct Hh as [? ?]); by destruct Hh as (? & ? & ?).
Qed.

(** C10.  In every world the one URL [Price] requests is its endpoint
    followed by a query string [q], the URL-encoding of a parameter list
    (the list parsing [q] gives back) in which the hotel identifier
    appears under the key [hotleId], with its decimal numeral, exactly
    when it is not zero, and in which nothing appears under [hotelId]. *)
Theorem Price_hotel_key (this : API) (req : PriceRequest.t) :
  ∃ (q : string) (ps : list (string * string)),
    (∀ w : World,
       network_calls
         (run w (Price (PriceResponse := PriceResponse)
                   IP_String max_PriceResponses this req)).2
       = [apiURL +:+ "cache.json?" +:+ q])
    ∧ q = Query.encode ps
    ∧ Parse.query q = Some ps
    ∧ (∀ x, ("hotleId", x) ∈ ps
            ↔ PriceRequest.HotelID req ≠ 0
              ∧ x = Strconv.Itoa (PriceRequest.HotelID req))
    ∧ (∀ x, ("hotelId", x) ∉ ps).
Proof.
  exists (URL.Encode (Price_values IP_String req)).
  exists (Query.pairs (Price_values IP_String req)).
  split; [|split; [|split; [|split]]].
  - intros w. apply Price_network_calls.
  - apply Encode_pairs.
  - rewrite Encode_pairs. apply parse_encode.
  - intros x. rewrite elem_of_pairs. apply Price_values_hotleId.
  - intros x. rewrite elem_of_pairs. apply Price_values_hotelId.
Qed.

(** C2 at the input where it fails: the client [NewAPI(35290)] whose
    token was never set.  [checkAccess] refuses it, yet [RoomTypes] sends
    its GET in every world, and its result is whatever the answer leads
    to: the transport error, [ErrNoAccess] only if the body does not
    decode, or the decoded value with no error at all. *)
Theorem RoomTypes_ignores_gate (w : World) :
  let this := {| token := ""; marker := 35290; remains := 0; limit := 0 |} in
  let url := "http://engine.hotellook.com/api/v2/static/roomTypes.json?marker=35290&signature=c778c86ec7f722e40573e5624679a7e7" in
  NewAPI 35290 = Some this
  ∧ checkAccess this = Some ErrNoAccess
  ∧ run w (RoomTypes (RoomTypes_t := RoomTypes_t) this) =
    match net w url with
    | GetFailed msg => (Returned (None, Some (TransportError msg)), [GET url])
    | GetOK r =>
        match Decode (Body r) (zero : RoomTypes_t) with
        | (_, Some _) => (Returned (None, Some ErrNoAccess), [GET url; GO r])
        | (resp, None) => (Returned (Some resp, None), [GET url; GO r])
        end
    end.
Proof.
  intros this url. split; [done|]. split; [done|].
  rewrite RoomTypes_run.
  assert (apiURL +:+ "static/roomTypes.json?" +:+ withSignature this None = url)
    as -> by (by vm_compute).
  done.
Qed.

(** C5 at the input where it fails: [Price] with limit -1.  Whenever the
    network answers, whatever the body, the method panics while
    allocating the result slice: it never reaches the decoder, so it
    returns no decode error. *)
Theorem Price_negative_limit_panics (this : API) (w : World) :
  let req := negative_limit_request in
  let url := apiURL +:+ "cache.json?" +:+ URL.Encode (Price_values IP_String req) in
  run w (Price (PriceResponse := PriceResponse)
           IP_String max_PriceResponses this req) =
  match net w url with
  | GetFailed msg => (Returned (None, Some (TransportError msg)), [GET url])
  | GetOK r =>
      (Panicked "runtime error: makeslice: len out of range", [GET url; GO r])
  end.
Proof.
  intros req url. unfold Price. cbv zeta. fold url. rewrite run_get.
  destruct (net w url) as [r|msg]; [|done].
  by rewrite run_go.
Qed.

(** The part of C5 that holds, closed methods: when the network answers
    with a body the decoder rejects, each of them returns [ErrNoAccess]
    (as it does when the gate refuses the client). *)
Lemma closed_methods_undecodable (this : API) (locationId : string)
    (w : World) (r : Response) (msg : string) :
  (∀ url, net w url = GetOK r) →
  (undecodable (list Countries_t) (Body r) msg →
   returned_error (run w (Countries (Countries_t := Countries_t) this)).1 = Some (Some ErrNoAccess))
  ∧ (undecodable (list Cities_t) (Body r) msg →
     returned_error (run w (Cities (Cities_t := Cities_t) this)).1 = Some (Some ErrNoAccess))
  ∧ (undecodable (list Amenity) (Body r) msg →
     returned_error (run w (Amenities (Amenity := Amenity) this)).1 = Some (Some ErrNoAccess))
  ∧ (undecodable HotelList (Body r) msg →
     returned_error (run w (FetchHotelList (HotelList := HotelList) this locationId)).1
     = Some (Some ErrNoAccess))
  ∧ (undecodable RoomTypes_t (Body r) msg →
     returned_error (run w (RoomTypes (RoomTypes_t := RoomTypes_t) this)).1 = Some (Some ErrNoAccess)).
Proof.
  intros Hnet. unfold undecodable.
  unfold Countries, Cities, Amenities, FetchHotelList, RoomTypes.
  destruct (checkAccess this) as [e|] eqn:Hgate.
  { assert (e = ErrNoAccess) as ->.
    { unfold checkAccess in Hgate. by destruct (_ || _); simplify_eq. }
    repeat split; try done.
    intros Hbad. cbv zeta. rewrite run_get, Hnet, run_go.
    specialize (Hbad zero). destruct (Decode _ _) as [? [?|]]; by simplify_eq/=. }
  cbv zeta. rewrite !run_get, !Hnet, !run_go.
  repeat split; intros Hbad.
  - specialize (Hbad (replicate 1 zero)). destruct (Decode _ _) as [? [?|]]; by simplify_eq/=.
  - specialize (Hbad (replicate 2 zero)). destruct (Decode _ _) as [? [?|]]; by simplify_eq/=.
  - specialize (Hbad (replicate 1 zero)). destruct (Decode _ _) as [? [?|]]; by simplify_eq/=.
  - specialize (Hbad zero). destruct (Decode _ _) as [? [?|]]; by simplify_eq/=.
  - specialize (Hbad zero). destruct (Decode _ _) as [? [?|]]; by simplify_eq/=.
Qed.

(** The part of C5 that holds, public methods: when the network answers
    with a body the decoder rejects, each of them returns the decoder's
    error; for [Price], provided the result slice could be allocated. *)
Lemma public_methods_undecodable (this : API) (w : World) (r : Response)
    (msg : string) :
  (∀ url, net w url = GetOK r) →
  (∀ req, undecodable LookupResponse (Body r) msg →
     returned_error (run w (Lookup (LookupResponse := LookupResponse) this req)).1 = Some (Some (DecodeError msg)))
  ∧ (∀ req, undecodable (list PriceResponse) (Body r) msg →
       0 ≤ Price_limit req ≤ max_PriceResponses →
       returned_error (run w (Price (PriceResponse := PriceResponse)
                                 IP_String max_PriceResponses this req)).1
       = Some (Some (DecodeError msg)))
  ∧ (∀ req, undecodable SearchStart (Body r) msg →
       returned_error (run w (Search ToUpper this req)).1
       = Some (Some (DecodeError msg)))
  ∧ (∀ req, undecodable SearchResults (Body r) msg →
       SearchResultsRequest.SearchID req ≠ 0 →
       SearchResultsRequest.SearchID req ≠ -1 →
       returned_error (run w (FetchSearchResults (SearchResults := SearchResults)
                                 this req)).1
       = Some (Some (DecodeError msg))).
Proof.
  intros Hnet. unfold undecodable. repeat split; intros req Hbad.
  - unfold Lookup. cbv zeta. rewrite run_get, Hnet, run_go.
    specialize (Hbad zero). destruct (Decode _ _) as [? [?|]]; by simplify_eq/=.
  - intros [Hlo Hhi]. unfold Price. cbv zeta. rewrite run_get, Hnet, run_go.
    unfold make_slice.
    assert ((Price_limit req <? 0) || (max_PriceResponses <? Price_limit req)
            = false) as ->.
    { apply orb_false_intro; by apply Z.ltb_ge. }
    specialize (Hbad (replicate (Z.to_nat (Price_limit req)) zero)).
    destruct (Decode _ _) as [? [?|]]; by simplify_eq/=.
  - unfold Search. cbv zeta. rewrite run_get, Hnet, run_go.
    specialize (Hbad zero). destruct (Decode _ _) as [? [?|]]; by simplify_eq/=.
  - intros H0 H1. unfold FetchSearchResults, FetchSearchResults_body.
    rewrite !bool_decide_eq_false_2 by done. cbn [snd].
    rewrite run_get, Hnet, run_go.
    specialize (Hbad zero). destruct (Decode _ _) as [? [?|]]; by simplify_eq/=.
Qed.

End EndpointProperties.

Lemma FetchSearchResults_fixture_witness :
  let req := {| SearchResultsRequest.SearchID := -1;
                SearchResultsRequest.Limit := 10;
                SearchResultsRequest.Offset := 5;
                SearchResultsRequest.SortBy := "price";
                SearchResultsRequest.SortAsc := 1;
                SearchResultsRequest.RoomsCount := 2 |} in
  SearchResultsRequest.SearchID req = -1
  ∧ run Raw.offline (@FetchSearchResults Raw.t Raw.zero_t Raw.json_t test_api req)
    = (Returned (Some "{}", None), [READ "./test_data.json"])
  ∧ network_calls
      (run Raw.offline
         (@FetchSearchResults Raw.t Raw.zero_t Raw.json_t test_api req)).2 = [].
Proof.
  intros req. split; [reflexivity|].
  exact (@FetchSearchResults_fixture Raw.t Raw.zero_t Raw.json_t
           test_api req Raw.offline eq_refl).
Defined.

Lemma FetchSearchResults_empty_id_witness :
  let req := {| SearchResultsRequest.SearchID := 0;
                SearchResultsRequest.Limit := 10;
                SearchResultsRequest.Offset := 5;
                SearchResultsRequest.SortBy := "price";
                SearchResultsRequest.SortAsc := -1;
                SearchResultsRequest.RoomsCount := 2 |} in
  SearchResultsRequest.SearchID req = 0
  ∧ @FetchSearchResults_body Raw.t Raw.zero_t Raw.json_t test_api req
    = (∅, Ret (None, Some ErrEmptySearchID))
  ∧ (∀ w : World,
       run w (@FetchSearchResults Raw.t Raw.zero_t Raw.json_t test_api req)
       = (Returned (None, Some ErrEmptySearchID), []))
  ∧ ErrEmptySearchID ≠ ErrNoAccess ∧ ErrEmptySearchID ≠ ErrMissingParams.
Proof.
  intros req. split; [reflexivity|].
  exact (@FetchSearchResults_empty_id Raw.t Raw.zero_t Raw.json_t
           test_api req eq_refl).
Defined.

(** ** Decimal numerals: [Itoa] and [Atoi] *)

Lemma acc_value_ge (d : Decimal.uint) (n : Z) : 0 ≤ n → n ≤ acc_value d n.
Proof.
  revert n. induction d as [|d IH|d IH|d IH|d IH|d IH|d IH|d IH|d IH|d IH|d IH];
    intros n Hn; simpl; [lia|..];
    (etrans; [|apply IH]; lia).
Qed.

Lemma of_uint_acc_value (d : Decimal.uint) (p : positive) :
  Z.pos (Pos.of_uint_acc d p) = acc_value d (Z.pos p).
Proof.
  revert p. induction d; intros p; simpl; [done|..]; rewrite IHd; f_equal; lia.
Qed.

Lemma of_uint_value (d : Decimal.uint) : Z.of_N (Pos.of_uint d) = acc_value d 0.
Proof.
  induction d; simpl; [done|done|..]; by rewrite of_uint_acc_value.
Qed.

(** The digit loop on a numeral whose value fits 64 bits reads that value;
    on one that does not fit it stops on the range error. *)
Lemma parse_uint_loop_numeral (d : Decimal.uint) (n : Z) :
  0 ≤ n ≤ Strconv.uint64_max →
  Strconv.parse_uint_loop (NilEmpty.string_of_uint d) n =
  if bool_decide (acc_value d n ≤ Strconv.uint64_max)
  then (acc_value d n, None)
  else (Strconv.uint64_max, Some Strconv.ErrRange).
Proof.
  revert n.
  assert (Hstep : ∀ (l : Decimal.uint) (c : ascii) (k : Z),
    (∀ n, 0 ≤ n ≤ Strconv.uint64_max →
       Strconv.parse_uint_loop (NilEmpty.string_of_uint l) n =
       if bool_decide (acc_value l n ≤ Strconv.uint64_max)
       then (acc_value l n, None)
       else (Strconv.uint64_max, Some Strconv.ErrRange)) →
    Strconv.is_digit c = true → Strconv.code c - 48 = k → 0 ≤ k ≤ 9 →
    ∀ n, 0 ≤ n ≤ Strconv.uint64_max →
      Strconv.parse_uint_loop (String c (NilEmpty.string_of_uint l)) n =
      if bool_decide (acc_value l (10 * n + k) ≤ Strconv.uint64_max)
      then (acc_value l (10 * n + k), None)
      else (Strconv.uint64_max, Some Strconv.ErrRange)).
  { intros l c k IH Hc Hk Hk9 n Hn. simpl. rewrite Hc, Hk. simpl.
    pose proof (acc_value_ge l (10 * n + k)) as Hge.
    unfold Strconv.uint64_max in *.
    destruct (Z.leb_spec ((2 ^ 64 - 1) / 10 + 1) n) as [Hcut|Hcut].
    { rewrite bool_decide_eq_false_2; [done|].
      change ((2 ^ 64 - 1) / 10 + 1) with 1844674407370955162 in Hcut. lia. }
    change ((2 ^ 64 - 1) / 10 + 1) with 1844674407370955162 in Hcut.
    replace (n * 10 + k) with (10 * n + k) by lia.
    destruct (Z.ltb_spec (2 ^ 64 - 1) (10 * n + k)) as [Hov|Hov].
    { rewrite bool_decide_eq_false_2; [done|]. lia. }
    apply IH. lia. }
  induction d; intros n Hn.
  - simpl. by rewrite bool_decide_eq_true_2 by lia.
  - replace (acc_value (Decimal.D0 d) n) with (acc_value d (10 * n + 0))
      by (simpl; f_equal; lia). by apply Hstep.
  - by apply Hstep.
  - by apply Hstep.
  - by apply Hstep.
  - by apply Hstep.
  - by apply Hstep.
  - by apply Hstep.
  - by apply Hstep.
  - by apply Hstep.
  - by apply Hstep.
Qed.

Lemma string_of_uint_head (d : Decimal.uint) :
  d ≠ Decimal.Nil →
  ∃ c s, NilEmpty.string_of_uint d = String c s ∧ Strconv.is_digit c = true.
Proof. destruct d; [done|..]; intros _; simpl; by eexists _, _. Qed.

Lemma ParseUint_numeral (d : Decimal.uint) :
  d ≠ Decimal.Nil →
  Strconv.ParseUint (NilEmpty.string_of_uint d) =
  if bool_decide (acc_value d 0 ≤ Strconv.uint64_max)
  then (acc_value d 0, None)
  else (Strconv.uint64_max, Some Strconv.ErrRange).
Proof.
  intros Hd. rewrite <- parse_uint_loop_numeral by done.
  destruct (string_of_uint_head d Hd) as (c & s & -> & _). done.
Qed.

(** [Atoi] on a numeral without sign, and on one with a minus sign. *)
Lemma Atoi_unsigned (d : Decimal.uint) :
  d ≠ Decimal.Nil →
  Strconv.Atoi (NilEmpty.string_of_uint d) =
  if bool_decide (acc_value d 0 ≤ Strconv.int_max)
  then (acc_value d 0, None)
  else (Strconv.int_max, Some Strconv.ErrRange).
Proof.
  intros Hd. pose proof (ParseUint_numeral d Hd) as Hp.
  destruct (string_of_uint_head d Hd) as (c & s & Hs & Hc). rewrite Hs in *.
  assert (c ≠ "-"%char ∧ c ≠ "+"%char) as [Hm Hpl]
    by (split; intros ->; discriminate).
  unfold Strconv.Atoi. rewrite !bool_decide_eq_false_2 by done.
  cbn [orb negb andb]. rewrite Hp.
  unfold Strconv.uint64_max, Strconv.int_max in *.
  case_bool_decide as Hfit; case_bool_decide as Hint; try lia.
  - destruct (Z.leb_spec (2 ^ 63) (acc_value d 0)); [lia|done].
  - destruct (Z.leb_spec (2 ^ 63) (acc_value d 0)); [done|lia].
  - done.
Qed.

Lemma Atoi_negative (d : Decimal.uint) :
  d ≠ Decimal.Nil →
  Strconv.Atoi (String "-" (NilEmpty.string_of_uint d)) =
  if bool_decide (acc_value d 0 ≤ - Strconv.int_min)
  then (- acc_value d 0, None)
  else (Strconv.int_min, Some Strconv.ErrRange).
Proof.
  intros Hd. pose proof (ParseUint_numeral d Hd) as Hp.
  unfold Strconv.Atoi.
  rewrite (bool_decide_eq_true_2 ("-"%char = "-"%char)) by done.
  rewrite orb_true_r. cbn [negb andb]. rewrite Hp.
  unfold Strconv.uint64_max, Strconv.int_min in *.
  case_bool_decide as Hfit; case_bool_decide as Hint; try lia.
  - destruct (Z.ltb_spec (2 ^ 63) (acc_value d 0)); [lia|done].
  - destruct (Z.ltb_spec (2 ^ 63) (acc_value d 0)); [done|lia].
  - done.
Qed.

Lemma to_uint_value (p : positive) : acc_value (Pos.to_uint p) 0 = Z.pos p.
Proof.
  rewrite <- of_uint_value. by rewrite DecimalPos.Unsigned.of_to.
Qed.

(** Reading back what [Itoa] prints: the number itself within the [int]
    range, the nearest bound with a range error outside it. *)
Lemma Atoi_Itoa_gen (n : Z) :
  Strconv.Atoi (Strconv.Itoa n) =
  (clamp_int n,
   if bool_decide (Strconv.int_min ≤ n ≤ Strconv.int_max) then None
   else Some Strconv.ErrRange).
Proof.
  destruct n as [|p|p]; [done|..]; unfold Strconv.Itoa;
    cbn [Z.to_int NilZero.string_of_int].
  - pose proof (DecimalPos.Unsigned.to_uint_nonnil p) as Hnil.
    replace (NilZero.string_of_uint (Pos.to_uint p))
      with (NilEmpty.string_of_uint (Pos.to_uint p))
      by (by destruct (Pos.to_uint p)).
    rewrite Atoi_unsigned, to_uint_value by done.
    unfold clamp_int, Strconv.int_max, Strconv.int_min.
    repeat case_bool_decide; try lia; f_equal; lia.
  - pose proof (DecimalPos.Unsigned.to_uint_nonnil p) as Hnil.
    replace (NilZero.string_of_uint (Pos.to_uint p))
      with (NilEmpty.string_of_uint (Pos.to_uint p))
      by (by destruct (Pos.to_uint p)).
    rewrite Atoi_negative, to_uint_value by done.
    unfold clamp_int, Strconv.int_max, Strconv.int_min.
    repeat case_bool_decide; try lia; f_equal; lia.
Qed.

(** ** The counters [updateRemains] stores *)

Lemma parse_uint_loop_range (s : string) (n : Z) :
  0 ≤ n ≤ Strconv.uint64_max →
  0 ≤ (Strconv.parse_uint_loop s n).1 ≤ Strconv.uint64_max.
Proof.
  revert n. induction s as [|c s IH]; intros n Hn; [done|]. simpl.
  destruct (Strconv.is_digit c) eqn:Hc; simpl; [|by vm_compute].
  destruct (Z.leb_spec (Strconv.uint64_max / 10 + 1) n); simpl; [by vm_compute|].
  destruct (Z.ltb_spec Strconv.uint64_max (n * 10 + (Strconv.code c - 48)));
    simpl; [by vm_compute|].
  apply IH. unfold Strconv.is_digit in Hc.
  apply andb_true_iff in Hc as [Hlo Hhi].
  apply Z.leb_le in Hlo, Hhi. lia.
Qed.

Lemma ParseUint_range (s : string) :
  0 ≤ (Strconv.ParseUint s).1 ≤ Strconv.uint64_max.
Proof.
  destruct s; [by vm_compute|]. apply parse_uint_loop_range. by vm_compute.
Qed.

(** [Atoi] yields an [int], and 0 on a syntax error. *)
Lemma Atoi_range (s : string) :
  Strconv.int_min ≤ (Strconv.Atoi s).1 ≤ Strconv.int_max.
Proof.
  assert (H0 : Strconv.int_min ≤ 0 ≤ Strconv.int_max) by (by vm_compute).
  assert (Hmax : Strconv.int_min ≤ Strconv.int_max ≤ Strconv.int_max)
    by (by vm_compute).
  assert (Hmin : Strconv.int_min ≤ Strconv.int_min ≤ Strconv.int_max)
    by (by vm_compute).
  destruct s as [|c0 rest]; [exact H0|]. unfold Strconv.Atoi. cbv zeta.
  generalize (bool_decide (c0 = "-"%char)). intros neg.
  generalize (if bool_decide (c0 = "+"%char) || neg then rest else String c0 rest).
  intros body. pose proof (ParseUint_range body) as Hr.
  destruct (Strconv.ParseUint body) as [un err]. cbn [fst] in Hr.
  assert (Hgen : Strconv.int_min
                 ≤ (if negb neg && (2 ^ 63 <=? un)
                    then (Strconv.int_max, Some Strconv.ErrRange)
                    else if neg && (2 ^ 63 <? un)
                         then (Strconv.int_min, Some Strconv.ErrRange)
                         else (if neg then - un else un, err)).1
                 ≤ Strconv.int_max).
  { destruct neg; cbn [negb andb].
    - destruct (Z.ltb_spec (2 ^ 63) un) as [Hlt|Hge]; [exact Hmin|].
      cbn [fst]. unfold Strconv.int_min, Strconv.int_max. lia.
    - destruct (Z.leb_spec (2 ^ 63) un) as [Hle|Hgt]; [exact Hmax|].
      cbn [fst]. unfold Strconv.int_min, Strconv.int_max. lia. }
  destruct err as [[|]|]; [exact H0|exact Hgen..].
Qed.

Lemma Header_Get_first (h : gmap string (list string)) (key x : string)
    (rest : list string) :
  h !! key = Some (x :: rest) → Header_Get h key = x.
Proof. intros Hk. unfold Header_Get. by rewrite Hk. Qed.

(** X1.  When the first value of each rate-limit header is the decimal
    numeral of a number, as [Itoa] prints it, [updateRemains] stores that
    number, or the nearest bound of the [int] range when the number lies
    outside it; values after the first are not looked at, and neither is
    what the client held before. *)
Theorem updateRemains_numerals (this : API) (r : Response) (n m : Z)
    (rest1 rest2 : list string) :
  Header r !! "X-Ratelimit-Remaining" = Some (Strconv.Itoa n :: rest1) →
  Header r !! "X-Ratelimit-Limit" = Some (Strconv.Itoa m :: rest2) →
  remains (updateRemains this r) = clamp_int n
  ∧ limit (updateRemains this r) = clamp_int m
  ∧ (Strconv.int_min ≤ n ≤ Strconv.int_max → remains (updateRemains this r) = n)
  ∧ (Strconv.int_min ≤ m ≤ Strconv.int_max → limit (updateRemains this r) = m).
Proof.
  intros Hn Hm. unfold updateRemains. cbn [remains limit].
  rewrite (Header_Get_first _ _ _ _ Hn), (Header_Get_first _ _ _ _ Hm).
  rewrite !Atoi_Itoa_gen. cbn [fst]. unfold clamp_int.
  repeat split; lia.
Qed.

(** X2.  Whatever the response, the counters [updateRemains] stores are
    within the 64-bit [int] range; a header that is absent leaves 0, not
    the value held before; token and marker are untouched. *)
Theorem updateRemains_bounds (this : API) (r : Response) :
  (Strconv.int_min ≤ remains (updateRemains this r) ≤ Strconv.int_max
   ∧ Strconv.int_min ≤ limit (updateRemains this r) ≤ Strconv.int_max)
  ∧ (Header r !! "X-Ratelimit-Remaining" = None →
     remains (updateRemains this r) = 0)
  ∧ (Header r !! "X-Ratelimit-Limit" = None →
     limit (updateRemains this r) = 0)
  ∧ token (updateRemains this r) = token this
  ∧ marker (updateRemains this r) = marker this.
Proof.
  unfold updateRemains. cbn [remains limit token marker].
  split; [split; apply Atoi_range|].
  split; [|split; [|done]]; intros Hk; unfold Header_Get; by rewrite Hk.
Qed.

Lemma updates_credentials (this : API) (rs : list Response) :
  token (foldl updateRemains this rs) = token this
  ∧ marker (foldl updateRemains this rs) = marker this.
Proof.
  revert this. induction rs as [|r rs IH]; intros this; [done|]. simpl.
  by destruct (IH (updateRemains this r)) as [-> ->].
Qed.

Lemma settle_spawned (this : API) (t : list Event) :
  settle this t = foldl updateRemains this (spawned t).
Proof.
  revert this. induction t as [|e t IH]; intros this; [done|].
  unfold settle, spawned. destruct e as [url|path|r]; simpl; apply IH.
Qed.

(** X3.  The counters are last-writer-wins.  After [updateRemains] on any
    responses, in whatever order the goroutines came to run, the client
    is as after the last of them alone: earlier responses leave no trace,
    and no update leaves the client as it was.  The client once the
    updates of a run have finished is such a client. *)
Theorem last_update_wins (this : API) (rs : list Response) (t : list Event) :
  foldl updateRemains this rs = match last rs with
                                | Some r => updateRemains this r
                                | None => this
                                end
  ∧ settle this t = foldl updateRemains this (spawned t).
Proof.
  split; [|apply settle_spawned].
  induction rs as [|r rs IH] using rev_ind; [done|].
  rewrite foldl_app, last_snoc. cbn [foldl].
  pose proof (updates_credentials this rs) as Hc. clear IH.
  revert Hc. generalize (foldl updateRemains this rs). intros this' [Ht Hm].
  unfold updateRemains. by rewrite Ht, Hm.
Qed.

(** ** Clients made by [NewAPI] *)

(** X4.  A client obtained from [NewAPI], whatever tokens it was given
    and whatever responses updated it since, has the marker it was made
    with, which is not 0; so the gate refuses it exactly when its token
    is empty, and [SetToken] with a token that is not empty opens the
    gate. *)
Theorem made_by_NewAPI_gate (this : API) :
  made_by_NewAPI this →
  marker this ≠ 0
  ∧ (checkAccess this = Some ErrNoAccess ↔ token this = "")
  ∧ ∀ tok, checkAccess (SetToken this tok) = None ↔ tok ≠ "".
Proof.
  intros Hmade.
  assert (Hm : marker this ≠ 0).
  { induction Hmade as [m this Hnew|this tok _ IH|this r _ IH]; [|done..].
    unfold NewAPI in Hnew. destruct (Z.eqb_spec m 0); by simplify_eq. }
  split; [done|]. split.
  - rewrite checkAccess_spec. tauto.
  - intros tok. rewrite checkAccess_ok. simpl. tauto.
Qed.

(** ** Photo links *)

Lemma string_app_inv_head (p s1 s2 : string) : p +:+ s1 = p +:+ s2 → s1 = s2.
Proof.
  induction p as [|c p IH]; [done|]. app_step. intros [= Heq]. by apply IH.
Qed.

Lemma string_app_inv_tail (s1 s2 t : string) : s1 +:+ t = s2 +:+ t → s1 = s2.
Proof.
  revert s2. induction s1 as [|c s1 IH]; intros [|c' s2]; app_step; intros Heq.
  - done.
  - apply (f_equal String.length) in Heq. simpl in Heq.
    rewrite string_length_app in Heq. lia.
  - apply (f_equal String.length) in Heq. simpl in Heq.
    rewrite string_length_app in Heq. lia.
  - injection Heq as -> Heq. f_equal. by apply IH.
Qed.

Lemma to_int_nonnil (a : Z) :
  Z.to_int a ≠ Decimal.Pos Decimal.Nil ∧ Z.to_int a ≠ Decimal.Neg Decimal.Nil.
Proof.
  destruct a as [|p|p]; simpl; split; try done;
    intros [= Hnil]; by apply DecimalPos.Unsigned.to_uint_nonnil in Hnil.
Qed.

Lemma Itoa_inj (a b : Z) : Strconv.Itoa a = Strconv.Itoa b → a = b.
Proof.
  unfold Strconv.Itoa. intros Heq.
  apply (f_equal NilZero.int_of_string) in Heq.
  destruct (to_int_nonnil a) as [Ha1 Ha2], (to_int_nonnil b) as [Hb1 Hb2].
  rewrite !NilZero.isi in Heq by done.
  injection Heq as Heq. by apply DecimalZ.to_int_inj.
Qed.

(** A numeral holds digits and at most a minus sign. *)
Lemma Itoa_free (sep : ascii) (i : Z) :
  Strconv.is_digit sep = false → sep ≠ "-"%char → free_of sep (Strconv.Itoa i).
Proof.
  intros Hd Hm.
  assert (He : ∀ d, free_of sep (NilEmpty.string_of_uint d)).
  { induction d; simpl; [done|..]; (split; [|done]); intros <-; discriminate. }
  assert (Hu : ∀ d, free_of sep (NilZero.string_of_uint d)).
  { intros d. pose proof (He d) as Hd'.
    destruct d; [|exact Hd'..]. split; [|done]. intros <-. discriminate. }
  unfold Strconv.Itoa. destruct (Z.to_int i) as [d|d]; simpl; [apply Hu|].
  split; [congruence|apply Hu].
Qed.

Lemma cut_inj (sep : ascii) (a a' b b' : string) :
  free_of sep a → free_of sep a' →
  a +:+ String sep b = a' +:+ String sep b' → a = a' ∧ b = b'.
Proof.
  intros Ha Ha' Heq. apply (f_equal (Parse.cut sep)) in Heq.
  rewrite !cut_free in Heq by done. by simplify_eq.
Qed.

(** X5.  [PhotoLink] does not look at the client, and two links are equal
    only when hotel, photo and size are: the link determines each of the
    three. *)
Theorem PhotoLink_inj (this this' : API) (hotelId hotelId' photoId photoId' : Z)
    (size size' : string) :
  PhotoLink this hotelId photoId size = PhotoLink this' hotelId' photoId' size'
  ↔ hotelId = hotelId' ∧ photoId = photoId' ∧ size = size'.
Proof.
  split; [|by intros (-> & -> & ->)].
  unfold PhotoLink. intros Heq.
  apply string_app_inv_head in Heq.
  change ("_" +:+ ?x) with (String "_" x) in Heq.
  apply cut_inj in Heq as [Hh Heq]; [|by apply Itoa_free..].
  change ("/" +:+ ?x) with (String "/" x) in Heq.
  apply cut_inj in Heq as [Hp Heq]; [|by apply Itoa_free..].
  apply string_app_inv_tail in Heq.
  split; [by apply Itoa_inj|]. split; [by apply Itoa_inj|done].
Qed.

(** ** What a call does, method by method *)

Section Runs.

Context {LookupResponse PriceResponse Countries_t Cities_t Amenity
         HotelList RoomTypes_t SearchResults : Type}.
Context `{!Zero LookupResponse, !JSON LookupResponse}.
Context `{!Zero PriceResponse, !JSON (list PriceResponse)}.
Context `{!Zero Countries_t, !JSON (list Countries_t)}.
Context `{!Zero Cities_t, !JSON (list Cities_t)}.
Context `{!Zero Amenity, !JSON (list Amenity)}.
Context `{!Zero HotelList, !JSON HotelList}.
Context `{!Zero RoomTypes_t, !JSON RoomTypes_t}.
Context `{!Zero SearchResults, !JSON SearchResults}.
Context `{!JSON SearchStart}.
Variable IP_String : list Z → string.
Variable ToUpper : string → string.
Variable max_PriceResponses : Z.

Lemma Lookup_run (this : API) (req : LookupRequest.t) (w : World) :
  let url := apiURL +:+ "lookup.json?" +:+ URL.Encode (Lookup_values req) in
  run w (Lookup (LookupResponse := LookupResponse) this req) =
  match net w url with
  | GetFailed msg =>
      (Returned (Some zero, Some (TransportError msg)), [GET url])
  | GetOK r =>
      match Decode (Body r) (zero : LookupResponse) with
      | (_, Some m) =>
          (Returned (Some zero, Some (DecodeError m)), [GET url; GO r])
      | (resp, None) => (Returned (Some resp, None), [GET url; GO r])
      end
  end.
Proof.
  intros url. unfold Lookup. cbv zeta. fold url. rewrite run_get.
  destruct (net w url) as [r|msg]; [|done].
  rewrite run_go. by destruct (Decode (Body r) zero) as [resp [e|]].
Qed.

Lemma Price_run (this : API) (req : PriceRequest.t) (w : World) :
  let url := apiURL +:+ "cache.json?" +:+ URL.Encode (Price_values IP_String req) in
  run w (Price (PriceResponse := PriceResponse)
           IP_String max_PriceResponses this req) =
  match net w url with
  | GetFailed msg => (Returned (None, Some (TransportError msg)), [GET url])
  | GetOK r =>
      match make_slice max_PriceResponses (Price_limit req) with
      | None =>
          (Panicked "runtime error: makeslice: len out of range",
           [GET url; GO r])
      | Some init =>
          match Decode (Body r) (init : list PriceResponse) with
          | (_, Some m) =>
              (Returned (None, Some (DecodeError m)), [GET url; GO r])
          | (resp, None) => (Returned (Some resp, None), [GET url; GO r])
          end
      end
  end.
Proof.
  intros url. unfold Price. cbv zeta. fold url. rewrite run_get.
  destruct (net w url) as [r|msg]; [|done].
  rewrite run_go. destruct (make_slice _ _) as [init|]; [|done].
  by destruct (Decode (Body r) init) as [resp [e|]].
Qed.

Lemma Countries_run (this : API) (w : World) :
  let url := apiURL +:+ "static/countries.json?" +:+ withSignature this None in
  run w (Countries (Countries_t := Countries_t) this) =
  match checkAccess this with
  | Some err => (Returned (None, Some err), [])
  | None =>
      match net w url with
      | GetFailed msg => (Returned (None, Some (TransportError msg)), [GET url])
      | GetOK r =>
          match Decode (Body r) (replicate 1 (zero : Countries_t)) with
          | (_, Some _) => (Returned (None, Some ErrNoAccess), [GET url; GO r])
          | (resp, None) => (Returned (Some resp, None), [GET url; GO r])
          end
      end
  end.
Proof.
  intros url. unfold Countries. destruct (checkAccess this); [done|].
  cbv zeta. fold url. rewrite run_get.
  destruct (net w url) as [r|msg]; [|done].
  rewrite run_go. by destruct (Decode (Body r) _) as [resp [e|]].
Qed.

Lemma Cities_run (this : API) (w : World) :
  let url := apiURL +:+ "static/locations.json?" +:+ withSignature this None in
  run w (Cities (Cities_t := Cities_t) this) =
  match checkAccess this with
  | Some err => (Returned (None, Some err), [])
  | None =>
      match net w url with
      | GetFailed msg => (Returned (None, Some (TransportError msg)), [GET url])
      | GetOK r =>
          match Decode (Body r) (replicate 2 (zero : Cities_t)) with
          | (_, Some _) => (Returned (None, Some ErrNoAccess), [GET url; GO r])
          | (resp, None) => (Returned (Some resp, None), [GET url; GO r])
          end
      end
  end.
Proof.
  intros url. unfold Cities. destruct (checkAccess this); [done|].
  cbv zeta. fold url. rewrite run_get.
  destruct (net w url) as [r|msg]; [|done].
  rewrite run_go. by destruct (Decode (Body r) _) as [resp [e|]].
Qed.

Lemma Amenities_run (this : API) (w : World) :
  let url := apiURL +:+ "static/amenities.json?" +:+ withSignature this None in
  run w (Amenities (Amenity := Amenity) this) =
  match checkAccess this with
  | Some err => (Returned ([], Some err), [])
  | None =>
      match net w url with
      | GetFailed msg => (Returned ([], Some (TransportError msg)), [GET url])
      | GetOK r =>
          match Decode (Body r) (replicate 1 (zero : Amenity)) with
          | (_, Some _) => (Returned ([], Some ErrNoAccess), [GET url; GO r])
          | (resp, None) => (Returned (resp, None), [GET url; GO r])
          end
      end
  end.
Proof.
  intros url. unfold Amenities. destruct (checkAccess this); [done|].
  cbv zeta. fold url. rewrite run_get.
  destruct (net w url) as [r|msg]; [|done].
  rewrite run_go. by destruct (Decode (Body r) _) as [resp [e|]].
Qed.

Lemma FetchHotelList_run (this : API) (locationId : string) (w : World) :
  let url := apiURL +:+ "static/hotels.json?"
               +:+ withSignature this (Some (<["locationId" := locationId]> ∅)) in
  run w (FetchHotelList (HotelList := HotelList) this locationId) =
  match checkAccess this with
  | Some err => (Returned (None, Some err), [])
  | None =>
      match net w url with
      | GetFailed msg =>
          (Returned (Some zero, Some (TransportError msg)), [GET url])
      | GetOK r =>
          match Decode (Body r) (zero : HotelList) with
          | (_, Some _) =>
              (Returned (Some zero, Some ErrNoAccess), [GET url; GO r])
          | (resp, None) => (Returned (Some resp, None), [GET url; GO r])
          end
      end
  end.
Proof.
  intros url. unfold FetchHotelList. destruct (checkAccess this); [done|].
  cbv zeta. fold url. rewrite run_get.
  destruct (net w url) as [r|msg]; [|done].
  rewrite run_go. by destruct (Decode (Body r) _) as [resp [e|]].
Qed.

Lemma Search_run (this : API) (req : SearchRequest.t) (w : World) :
  let url := apiURL +:+ "search/start.json?"
               +:+ withSignature this (Some (Search_params ToUpper req)) in
  run w (Search ToUpper this req) =
  match net w url with
  | GetFailed msg => (Returned (0, Some (TransportError msg)), [GET url])
  | GetOK r =>
      match Decode (Body r) (zero : SearchStart) with
      | (_, Some m) => (Returned (0, Some (DecodeError m)), [GET url; GO r])
      | (resp, None) => (Returned (SearchID resp, None), [GET url; GO r])
      end
  end.
Proof.
  intros url. unfold Search. cbv zeta. fold url. rewrite run_get.
  destruct (net w url) as [r|msg]; [|done].
  rewrite run_go. by destruct (Decode (Body r) zero) as [resp [e|]].
Qed.

Lemma FetchSearchResults_run (this : API) (req : SearchResultsRequest.t)
    (w : World) :
  let url := apiURL +:+ "search/getResult.json?"
               +:+ withSignature this (Some (FetchSearchResults_params req ∅)) in
  run w (FetchSearchResults (SearchResults := SearchResults) this req) =
  if bool_decide (SearchResultsRequest.SearchID req = 0) then
    (Returned (None, Some ErrEmptySearchID), [])
  else if bool_decide (SearchResultsRequest.SearchID req = -1) then
    (Returned (Some (Decode (disk w "./test_data.json") (zero : SearchResults)).1,
               DecodeError <$> (Decode (disk w "./test_data.json")
                                  (zero : SearchResults)).2),
     [READ "./test_data.json"])
  else
    match net w url with
    | GetFailed msg =>
        (Returned (Some zero, Some (TransportError msg)), [GET url])
    | GetOK r =>
        match Decode (Body r) (zero : SearchResults) with
        | (_, Some m) =>
            (Returned (Some zero, Some (DecodeError m)), [GET url; GO r])
        | (resp, None) => (Returned (Some resp, None), [GET url; GO r])
        end
    end.
Proof.
  intros url. unfold FetchSearchResults, FetchSearchResults_body.
  case_bool_decide as H0; [done|]. case_bool_decide as H1.
  - cbn [snd]. rewrite run_read. by destruct (Decode _ _) as [resp [e|]].
  - cbn [snd]. fold url. rewrite run_get.
    destruct (net w url) as [r|msg]; [|done].
    rewrite run_go. by destruct (Decode (Body r) zero) as [resp [e|]].
Qed.

(** The calls at the response types of this section. *)
Local Abbreviation trace :=
  (@call_trace LookupResponse PriceResponse Countries_t Cities_t Amenity
     HotelList RoomTypes_t SearchResults _ _ _ _ _ _ _ _ _ _ _ _ _ _ _ _ _
     IP_String ToUpper max_PriceResponses).

Local Abbreviation outcome :=
  (@call_error LookupResponse PriceResponse Countries_t Cities_t Amenity
     HotelList RoomTypes_t SearchResults _ _ _ _ _ _ _ _ _ _ _ _ _ _ _ _ _
     IP_String ToUpper max_PriceResponses).

(** Case analysis on everything a run depends on. *)
Ltac run_cases :=
  repeat match goal with
  | |- context [checkAccess ?t] => destruct (checkAccess t) eqn:?
  | |- context [match net ?w ?u with _ => _ end] => destruct (net w u) eqn:?
  | |- context [make_slice ?a ?b] => destruct (make_slice a b) eqn:?
  | |- context [match Decode ?b ?i with _ => _ end] =>
      let e := fresh "e" in destruct (Decode b i) as [? [e|]] eqn:?
  | |- context [bool_decide ?P] => destruct (bool_decide_reflect P)
  end.

(** Rewrite a call into the description of its run. *)
Ltac unfold_call :=
  unfold call_trace, call_error;
  rewrite ?Lookup_run, ?Price_run, ?Countries_run, ?Cities_run, ?Amenities_run,
    ?FetchHotelList_run, ?RoomTypes_run, ?Search_run, ?FetchSearchResults_run;
  cbv zeta.

(** X6.  A call sends one request or none: which of the two depends only
    on the credentials (for the four gated methods) or on the search
    identifier (for [FetchSearchResults]), never on the world; the request
    goes to a URL under the API base that the world does not influence
    either. *)
Theorem one_request_or_none (c : Call) (this : API) :
  ∃ q : string, ∀ w : World,
    (reaches_network c this
     ∧ network_calls (trace c this w)
       = [apiURL +:+ q])
    ∨ (¬ reaches_network c this
       ∧ network_calls (trace c this w)
         = []).
Proof.
  destruct c as [req|req| | | |locationId| |req|req]; simpl reaches_network.
  - exists ("lookup.json?" +:+ URL.Encode (Lookup_values req)).
    intros w. left. split; [done|]. unfold_call. by run_cases.
  - exists ("cache.json?" +:+ URL.Encode (Price_values IP_String req)).
    intros w. left. split; [done|]. unfold_call. by run_cases.
  - exists ("static/countries.json?" +:+ withSignature this None).
    intros w. unfold_call. destruct (checkAccess this) eqn:Hg.
    + right. split; [|done]. intros Hok. apply checkAccess_ok in Hok. congruence.
    + left. split; [by apply checkAccess_ok|]. by run_cases.
  - exists ("static/locations.json?" +:+ withSignature this None).
    intros w. unfold_call. destruct (checkAccess this) eqn:Hg.
    + right. split; [|done]. intros Hok. apply checkAccess_ok in Hok. congruence.
    + left. split; [by apply checkAccess_ok|]. by run_cases.
  - exists ("static/amenities.json?" +:+ withSignature this None).
    intros w. unfold_call. destruct (checkAccess this) eqn:Hg.
    + right. split; [|done]. intros Hok. apply checkAccess_ok in Hok. congruence.
    + left. split; [by apply checkAccess_ok|]. by run_cases.
  - exists ("static/hotels.json?"
            +:+ withSignature this (Some (<["locationId" := locationId]> ∅))).
    intros w. unfold_call. destruct (checkAccess this) eqn:Hg.
    + right. split; [|done]. intros Hok. apply checkAccess_ok in Hok. congruence.
    + left. split; [by apply checkAccess_ok|]. by run_cases.
  - exists ("static/roomTypes.json?" +:+ withSignature this None).
    intros w. left. split; [done|]. unfold_call. by run_cases.
  - exists ("search/start.json?"
            +:+ withSignature this (Some (Search_params ToUpper req))).
    intros w. left. split; [done|]. unfold_call. by run_cases.
  - exists ("search/getResult.json?"
            +:+ withSignature this (Some (FetchSearchResults_params req ∅))).
    intros w. unfold_call.
    destruct (bool_decide_reflect (SearchResultsRequest.SearchID req = 0)).
    { right. split; [|done]. by intros [? _]. }
    destruct (bool_decide_reflect (SearchResultsRequest.SearchID req = -1)).
    { right. split; [|done]. by intros [_ ?]. }
    left. split; [done|]. by run_cases.
Qed.

(** Finish a case of a run: compute the events and use the equations of
    the case analysis. *)
Ltac close_case :=
  unfold answers, responses, spawned, network_calls; simpl;
  repeat match goal with H : net _ _ = _ |- _ => rewrite H; clear H end;
  simpl; try done.

(** X7.  An [updateRemains] is spawned for exactly the responses the call
    received: none when the call did not go out or the transport failed,
    one when the network answered, whether the body then decodes or not
    (and whether [Price] then panics or not). *)
Theorem updates_follow_responses (c : Call) (this : API) (w : World) :
  spawned (trace c this w) = responses (answers w (trace c this w)).
Proof.
  destruct c; unfold_call; run_cases; close_case.
Qed.

(** X8.  When the one request of a call fails in transport, the call
    returns that transport error, whatever the method. *)
Theorem transport_error_returned (c : Call) (this : API) (w : World)
    (msg : string) :
  answers w (trace c this w) = [GetFailed msg] →
  outcome c this w = Some (Some (TransportError msg)).
Proof.
  destruct c; unfold_call; run_cases; close_case;
    intros Heq; by simplify_eq.
Qed.


(** X10.  Which errors a call can return.  [ErrNoAccess] comes only from
    the five closed methods, a decode error only from the four public
    ones, [ErrEmptySearchID] only from [FetchSearchResults] with
    identifier 0, a transport error only when the request failed with it,
    and [ErrMissingParams] never. *)
Theorem errors_by_method (c : Call) (this : API) (w : World) (e : error) :
  outcome c this w = Some (Some e) →
  match e with
  | ErrNoAccess => closed_call c
  | ErrEmptySearchID =>
      ∃ req, c = CallFetchSearchResults req
             ∧ SearchResultsRequest.SearchID req = 0
  | ErrMissingParams => False
  | TransportError msg => answers w (trace c this w) = [GetFailed msg]
  | DecodeError _ => ¬ closed_call c
  end.
Proof.
  destruct c as [req|req| | | |locationId| |req|req];
    unfold_call; run_cases; close_case.
  all: intros Heq; simplify_eq/=; try done; try tauto; eauto.
  all: try match goal with H : checkAccess _ = Some _ |- _ =>
         unfold checkAccess in H; destruct (_ || _); by simplify_eq end.
  all: destruct (Decode (disk w "./test_data.json") (zero : SearchResults))
         as [? [?|]]; simplify_eq/=; tauto.
Qed.

(** Clients with the same credentials make the same calls. *)
Lemma same_credentials (c : Call) (this this' : API) (w : World) :
  token this' = token this → marker this' = marker this →
  trace c this' w = trace c this w ∧ outcome c this' w = outcome c this w.
Proof.
  intros Ht Hm.
  assert (Hgate : checkAccess this' = checkAccess this)
    by (unfold checkAccess; by rewrite Ht, Hm).
  assert (Hsig : ∀ p, withSignature this' p = withSignature this p)
    by (intros p; unfold withSignature, withSignature_ranged; by rewrite Ht, Hm).
  destruct c; unfold_call; by rewrite ?Hgate, ?Hsig.
Qed.

(** X11.  The counters are never consulted: a client whose counters were
    updated by any responses makes every call exactly as the client
    before the updates does, with the same events and the same error. *)
Theorem counters_advisory (c : Call) (this : API) (rs : list Response)
    (w : World) :
  trace c (foldl updateRemains this rs) w = trace c this w
  ∧ outcome c (foldl updateRemains this rs) w = outcome c this w.
Proof.
  destruct (updates_credentials this rs) as [Ht Hm].
  by apply same_credentials.
Qed.

(** X12.  When the network answers a call with a body that the decoder of
    the call's response type rejects, the five closed methods return
    [ErrNoAccess] and the public ones the decoder's error; [Price] does so
    only if its result could be allocated, and panics otherwise. *)
Theorem undecodable_answer (c : Call) (this : API) (w : World) (r : Response)
    (msg : string) :
  answers w (trace c this w) = [GetOK r] →
  call_undecodable (LookupResponse := LookupResponse)
    (PriceResponse := PriceResponse) (Countries_t := Countries_t)
    (Cities_t := Cities_t) (Amenity := Amenity) (HotelList := HotelList)
    (RoomTypes_t := RoomTypes_t) (SearchResults := SearchResults)
    c (Body r) msg →
  outcome c this w =
  match c with
  | CallCountries | CallCities | CallAmenities | CallFetchHotelList _
  | CallRoomTypes => Some (Some ErrNoAccess)
  | CallPrice req =>
      if bool_decide (0 ≤ Price_limit req ≤ max_PriceResponses)
      then Some (Some (DecodeError msg)) else None
  | _ => Some (Some (DecodeError msg))
  end.
Proof.
  unfold call_undecodable, undecodable.
  destruct c as [req|req| | | |locationId| |req|req]; unfold_call.
  all: try (destruct (checkAccess this) as [err|]; [by intros [=]|]).
  all: try (destruct (bool_decide_reflect (SearchResultsRequest.SearchID req = 0));
            [by intros [=]|];
            destruct (bool_decide_reflect (SearchResultsRequest.SearchID req = -1));
            [by intros [=]|]).
  all: match goal with |- context [net ?w0 ?u] =>
         unfold answers, network_calls; destruct (net w0 u) as [r'|msg'] eqn:Hnet
       end.
  all: try (simpl; rewrite Hnet; by intros [=]).
  - intros Hans Hbad. assert (r' = r) as ->.
    { revert Hans. destruct (Decode (Body r') _) as [? [?|]]; simpl;
        rewrite Hnet; by intros [= ->]. }
    specialize (Hbad zero). by destruct (Decode (Body r) _) as [? [?|]]; simplify_eq/=.
  - intros Hans Hbad. assert (r' = r) as ->.
    { revert Hans. destruct (make_slice _ _) as [init|]; simpl;
        [destruct (Decode (Body r') _) as [? [?|]]; simpl|];
        rewrite Hnet; by intros [= ->]. }
    unfold make_slice.
    destruct (bool_decide_reflect (0 ≤ Price_limit req ≤ max_PriceResponses))
      as [[Hlo Hhi]|Hout].
    + rewrite (proj2 (Z.ltb_ge _ _) Hlo), (proj2 (Z.ltb_ge _ _) Hhi). simpl.
      specialize (Hbad (replicate (Z.to_nat (Price_limit req)) zero)).
      by destruct (Decode (Body r) _) as [? [?|]]; simplify_eq/=.
    + destruct (Z.ltb_spec (Price_limit req) 0) as [?|Hlo]; [done|].
      destruct (Z.ltb_spec max_PriceResponses (Price_limit req)) as [?|Hhi];
        [done|]. lia.
  - intros Hans Hbad. assert (r' = r) as ->.
    { revert Hans. destruct (Decode (Body r') _) as [? [?|]]; simpl;
        rewrite Hnet; by intros [= ->]. }
    specialize (Hbad (replicate 1 zero)).
    by destruct (Decode (Body r) _) as [? [?|]]; simplify_eq/=.
  - intros Hans Hbad. assert (r' = r) as ->.
    { revert Hans. destruct (Decode (Body r') _) as [? [?|]]; simpl;
        rewrite Hnet; by intros [= ->]. }
    specialize (Hbad (replicate 2 zero)).
    by destruct (Decode (Body r) _) as [? [?|]]; simplify_eq/=.
  - intros Hans Hbad. assert (r' = r) as ->.
    { revert Hans. destruct (Decode (Body r') _) as [? [?|]]; simpl;
        rewrite Hnet; by intros [= ->]. }
    specialize (Hbad (replicate 1 zero)).
    by destruct (Decode (Body r) _) as [? [?|]]; simplify_eq/=.
  - intros Hans Hbad. assert (r' = r) as ->.
    { revert Hans. destruct (Decode (Body r') _) as [? [?|]]; simpl;
        rewrite Hnet; by intros [= ->]. }
    specialize (Hbad zero). by destruct (Decode (Body r) _) as [? [?|]]; simplify_eq/=.
  - intros Hans Hbad. assert (r' = r) as ->.
    { revert Hans. destruct (Decode (Body r') _) as [? [?|]]; simpl;
        rewrite Hnet; by intros [= ->]. }
    specialize (Hbad zero). by destruct (Decode (Body r) _) as [? [?|]]; simplify_eq/=.
  - intros Hans Hbad. assert (r' = r) as ->.
    { revert Hans. destruct (Decode (Body r') _) as [? [?|]]; simpl;
        rewrite Hnet; by intros [= ->]. }
    specialize (Hbad zero). by destruct (Decode (Body r) _) as [? [?|]]; simplify_eq/=.
  - intros Hans Hbad. assert (r' = r) as ->.
    { revert Hans. destruct (Decode (Body r') _) as [? [?|]]; simpl;
        rewrite Hnet; by intros [= ->]. }
    specialize (Hbad zero). by destruct (Decode (Body r) _) as [? [?|]]; simplify_eq/=.
Qed.

(** X13.  A call that returns an error returns no data beside it: the
    value is nil, a pointer to a zero struct or 0, as the method has it.
    The one exception is [FetchSearchResults] on the fixture (identifier
    -1), which returns the struct the decoder was writing into. *)
Theorem errors_return_blank (c : Call) (this : API) (w : World) (e : error) :
  outcome c this w = Some (Some e) →
  returned_blank (LookupResponse := LookupResponse)
    (PriceResponse := PriceResponse) (Countries_t := Countries_t)
    (Cities_t := Cities_t) (Amenity := Amenity) (HotelList := HotelList)
    (RoomTypes_t := RoomTypes_t) (SearchResults := SearchResults)
    IP_String ToUpper max_PriceResponses c this w e
  ∨ ∃ req, c = CallFetchSearchResults req
           ∧ SearchResultsRequest.SearchID req = -1.
Proof.
  destruct c as [req|req| | | |locationId| |req|req];
    unfold returned_blank; unfold_call.
  9: { destruct (bool_decide_reflect (SearchResultsRequest.SearchID req = 0));
         [intros [= <-]; by left|].
       destruct (bool_decide_reflect (SearchResultsRequest.SearchID req = -1));
         [intros _; right; by exists req|].
       destruct (net w _) as [r|msg]; [|intros [= <-]; by left].
       destruct (Decode (Body r) _) as [? [?|]]; intros [= <-]; by left. }
  all: try (destruct (checkAccess this) as [err|] eqn:Hgate;
            [intros [= <-]; left; by rewrite ?bool_decide_eq_false_2 by done|];
            rewrite ?bool_decide_eq_true_2 by done).
  all: destruct (net w _) as [r|msg]; [|intros [= <-]; by left].
  all: try (destruct (make_slice _ _) as [init|]; [|by intros [=]]).
  all: destruct (Decode (Body r) _) as [? [?|]]; intros [= <-]; by left.
Qed.

(** X14.  [Search] that returns an error returns the identifier 0 with
    it, and [FetchSearchResults] given that identifier refuses with
    [ErrEmptySearchID] without any request, for every client and in every
    world. *)
Theorem failed_Search_identifier (this : API) (req : SearchRequest.t)
    (w : World) (id : Z) (e : error) :
  (run w (Search ToUpper this req)).1 = Returned (id, Some e) →
  id = 0
  ∧ ∀ (this' : API) (req' : SearchResultsRequest.t) (w' : World),
      SearchResultsRequest.SearchID req' = id →
      run w' (FetchSearchResults (SearchResults := SearchResults) this' req')
      = (Returned (None, Some ErrEmptySearchID), []).
Proof.
  rewrite Search_run. cbv zeta. intros Hrun.
  assert (id = 0) as ->.
  { destruct (net w _) as [r|msg]; [|by simplify_eq/=].
    destruct (Decode (Body r) zero) as [resp [m|]]; by simplify_eq/=. }
  split; [done|]. intros this' req' w' Hid.
  rewrite FetchSearchResults_run. cbv zeta.
  by rewrite bool_decide_eq_true_2.
Qed.

(** X15.  The disk is read by one call only, [FetchSearchResults] with
    the identifier -1; the file is [./test_data.json] and reading it is
    all the call does. *)
Theorem reads_only_fixture (c : Call) (this : API) (w : World) (path : string) :
  READ path ∈ trace c this w →
  path = "./test_data.json"
  ∧ trace c this w = [READ path]
  ∧ ∃ req, c = CallFetchSearchResults req
           ∧ SearchResultsRequest.SearchID req = -1.
Proof.
  destruct c as [req|req| | | |locationId| |req|req];
    unfold_call; run_cases; simpl; intros Hin;
    repeat (apply elem_of_cons in Hin as [Hin|Hin]; [simplify_eq|]);
    try (by apply elem_of_nil in Hin).
  all: split; [done|]; split; [done|]; by exists req.
Qed.

(** X16.  A call returns a nil error exactly when it received a response
    whose body the decoder accepts, or, for [FetchSearchResults] with the
    identifier -1, when the decoder accepts the fixture.  In particular a
    call that sends no request never succeeds otherwise. *)
Theorem nil_error_iff_decoded (c : Call) (this : API) (w : World) :
  outcome c this w = Some None ↔
  (∃ r, answers w (trace c this w) = [GetOK r]
        ∧ call_decodes (LookupResponse := LookupResponse)
            (PriceResponse := PriceResponse) (Countries_t := Countries_t)
            (Cities_t := Cities_t) (Amenity := Amenity)
            (HotelList := HotelList) (RoomTypes_t := RoomTypes_t)
            (SearchResults := SearchResults)
            max_PriceResponses c (Body r))
  ∨ (∃ req, c = CallFetchSearchResults req
            ∧ SearchResultsRequest.SearchID req = -1
            ∧ (Decode (disk w "./test_data.json") (zero : SearchResults)).2
              = None).
Proof.
  unfold call_decodes.
  destruct c as [req|req| | | |locationId| |req|req]; unfold_call.
  9: { destruct (bool_decide_reflect (SearchResultsRequest.SearchID req = 0))
         as [Hz|Hz].
       { split; [done|]. intros [(r & Hr & _)|(req' & [= <-] & Hid & _)];
           [done|congruence]. }
       destruct (bool_decide_reflect (SearchResultsRequest.SearchID req = -1))
         as [Hf|Hf].
       { simpl. split.
         - intros Hok. right. exists req. split; [done|]. split; [done|].
           destruct (Decode _ _) as [? [?|]]; by simplify_eq/=.
         - intros [(r & Hr & _)|(req' & _ & _ & Hd)]; [done|].
           by rewrite Hd. }
       unfold answers, network_calls.
       destruct (net w _) as [r|msg] eqn:Hnet.
       - destruct (Decode (Body r) zero) as [resp [e|]] eqn:Hd; simpl;
           rewrite Hnet; (split; [intros [=]|]).
         + intros [(r' & [= <-] & Hd')|(req' & [= <-] & ? & _)]; [|done].
           rewrite Hd in Hd'. done.
         + left. exists r. by rewrite Hd.
         + done.
       - simpl. rewrite Hnet. split; [done|].
         intros [(r' & [=] & _)|(req' & [= <-] & ? & _)]. done. }
  all: try (destruct (checkAccess this) as [err|];
            [split; [done|]; intros [(r & Hr & _)|(req' & [=] & _)]; done|]).
  all: unfold answers, network_calls;
    destruct (net w _) as [r|msg] eqn:Hnet;
    [|simpl; rewrite Hnet; split; [done|];
      intros [(r' & [=] & _)|(req' & [=] & _)]].
  2: { destruct (make_slice _ _) as [init|] eqn:Hs; simpl.
       - destruct (Decode (Body r) init) as [resp [e|]] eqn:Hd; simpl;
           rewrite Hnet; (split; [intros [=]|]).
         + intros [(r' & [= <-] & init' & [= <-] & Hd')|(req' & [=] & _)].
           rewrite Hd in Hd'. done.
         + left. exists r. split; [done|]. exists init. by rewrite Hd.
         + done.
       - rewrite Hnet. split; [done|].
         intros [(r' & _ & init' & [=] & _)|(req' & [=] & _)]. }
  all: destruct (Decode (Body r) _) as [resp [e|]] eqn:Hd; simpl; rewrite Hnet;
    simpl in Hd; (split; [intros [=]|]);
    try (intros [(r' & [= <-] & Hd')|(req' & [=] & _)]; rewrite Hd in Hd'; done);
    try (left; exists r; by rewrite Hd); try done.
Qed.

End Runs.

(** ** The parameters of the public methods *)

(** Replace the values of a goal by variables, so that computing the
    shape of a map of parameters does not look into them. *)
Ltac abstract_values :=
  repeat match goal with
  | |- context [Strconv.Itoa ?x] =>
      let v := fresh "v" in generalize (Strconv.Itoa x); intros v
  end.

Lemma Lookup_pairs (req : LookupRequest.t) :
  Query.pairs (Lookup_values req) = Lookup_list req.
Proof.
  unfold Lookup_values, Lookup_list. cbv zeta.
  destruct req as [q la lf li cc]. cbn [LookupRequest.Query LookupRequest.Lang
    LookupRequest.LookFor LookupRequest.Limit LookupRequest.ConvertCase].
  abstract_values.
  destruct (bool_decide (li ≠ 0)), (bool_decide (cc ≠ 0)); vm_compute; reflexivity.
Qed.

Lemma Price_pairs (IP_String : list Z → string) (req : PriceRequest.t) :
  Query.pairs (Price_values IP_String req) = Price_list IP_String req.
Proof.
  unfold Price_values, Price_list. cbv zeta.
  destruct req as [lo ci co cu lid hid ho ad ch inf li ip].
  cbn [PriceRequest.Location PriceRequest.CheckIn PriceRequest.CheckOut
       PriceRequest.Currency PriceRequest.LocationID PriceRequest.HotelID
       PriceRequest.Hotel PriceRequest.Adults PriceRequest.Children
       PriceRequest.Infants PriceRequest.Limit PriceRequest.CustomerIP].
  abstract_values. generalize (IP_String ip). intros vip.
  destruct (bool_decide (lid ≠ 0)), (bool_decide (hid ≠ 0)),
    (bool_decide (ho ≠ "")), (bool_decide (ad ≠ 0)), (bool_decide (ch ≠ 0)),
    (bool_decide (cu ≠ "")), (bool_decide (inf ≠ 0)), (bool_decide (li ≠ 0));
    vm_compute; reflexivity.
Qed.

Lemma pairs_of_keys_sorted (v : URL.Values) (ks : list string) :
  Sorted String.le ks → Sorted String.le (Query.pairs_of v ks).*1.
Proof.
  intros Hs. apply (Sorted_StronglySorted String.le) in Hs.
  apply StronglySorted_Sorted.
  induction Hs as [|k ks Hks IH Hall]; [constructor|].
  unfold Query.pairs_of. rewrite bind_cons, fmap_app. fold (Query.pairs_of v ks).
  rewrite <- list_fmap_compose.
  apply StronglySorted_app_2; [| |done].
  - intros k1 k2 Hk1 Hk2.
    apply list_elem_of_fmap in Hk1 as (x1 & -> & _). simpl.
    apply list_elem_of_fmap in Hk2 as ([k' x'] & -> & Hin). simpl.
    apply elem_of_pairs_of in Hin as [Hk' _].
    by eapply Forall_forall in Hall.
  - generalize (default [] (v !! k)) as xs.
    induction xs as [|x xs IHx]; [constructor|].
    rewrite fmap_cons. constructor; [exact IHx|].
    apply Forall_fmap, Forall_forall. intros y _. simpl. reflexivity.
Qed.

(** The keys of a query string written by [Encode] are in ascending
    order. *)
Lemma pairs_keys_sorted (v : URL.Values) : Sorted String.le (Query.pairs v).*1.
Proof. apply pairs_of_keys_sorted, Sort_Sorted. Qed.

Section PublicQueries.

Context {LookupResponse PriceResponse : Type}.
Context `{!Zero LookupResponse, !JSON LookupResponse}.
Context `{!Zero PriceResponse, !JSON (list PriceResponse)}.
Variable IP_String : list Z → string.
Variable max_PriceResponses : Z.

(** X17.  [Lookup], for every client and in every world, requests exactly
    one URL: the lookup endpoint followed by the encoding of [lang],
    [lookFor] and [query] (sent even when empty), with [limit] and
    [convertCase] only when they are not zero, keys in ascending order.
    Token and marker do not appear, and parsing the query string gives
    these parameters back. *)
Theorem Lookup_query (this : API) (req : LookupRequest.t) (w : World) :
  network_calls (run w (Lookup (LookupResponse := LookupResponse) this req)).2
  = [apiURL +:+ "lookup.json?" +:+ Query.encode (Lookup_list req)]
  ∧ Parse.query (Query.encode (Lookup_list req)) = Some (Lookup_list req).
Proof.
  split; [|apply parse_encode].
  rewrite <- Lookup_pairs, <- Encode_pairs, Lookup_run. cbv zeta.
  destruct (net w _) as [r|msg]; [|done].
  by destruct (Decode (Body r) zero) as [resp [e|]].
Qed.

(** X18.  [Price], for every client and in every world, requests exactly
    one URL: the cache endpoint followed by the encoding of [checkIn],
    [checkOut], [clientIp] and [location] (sent even when empty) and of
    the optional fields that are not zero or empty, the hotel identifier
    under [hotleId], keys in ascending order; parsing the query string
    gives these parameters back. *)
Theorem Price_query (this : API) (req : PriceRequest.t) (w : World) :
  network_calls
    (run w (Price (PriceResponse := PriceResponse)
              IP_String max_PriceResponses this req)).2
  = [apiURL +:+ "cache.json?" +:+ Query.encode (Price_list IP_String req)]
  ∧ Parse.query (Query.encode (Price_list IP_String req))
    = Some (Price_list IP_String req).
Proof.
  split; [|apply parse_encode].
  rewrite <- Price_pairs, <- Encode_pairs. apply Price_network_calls.
Qed.

End PublicQueries.

(** ** The parameters of the signed methods *)

Lemma values_tail_entries (m : gmap string string) (ks : list string) :
  values_tail m ks = concat_values ((fun k => (k, default "" (m !! k))) <$> ks).
Proof.
  induction ks as [|k ks IH]; [done|].
  rewrite fmap_cons. unfold values_tail, concat_values. rewrite !foldr_cons.
  fold (values_tail m ks).
  fold (concat_values ((fun k => (k, default "" (m !! k))) <$> ks)).
  cbn [fst snd]. by rewrite IH.
Qed.

(** The query built by the signing loop does not depend on the source
    string built beside it. *)
Lemma sign_fold_values (m : gmap string string) (ks : list string) src src' v :
  (foldl (sign_param m) (src, v) ks).2 = (foldl (sign_param m) (src', v) ks).2.
Proof.
  revert src src' v. induction ks as [|k ks IH]; intros src src' v; [done|].
  simpl. unfold sign_param at 2 4. simpl. apply IH.
Qed.

(** Signing a map: the parameters sent, and the signature as that of the
    entries of the map in ascending key order. *)
Lemma withSignature_pairs (this : API) (m : gmap string string) :
  withSignature this (Some m) =
  Query.encode
    (Query.pairs
       (URL.Add "signature" (signature_of this (entries m))
          (URL.Add "marker" (Strconv.Itoa (marker this))
             (foldl (sign_param m) ("", ∅) (Sort (URL.keys m))).2))).
Proof.
  unfold withSignature. simpl from_option.
  rewrite withSignature_ranged_unfold, Encode_pairs. cbv zeta.
  rewrite sign_fold_src, values_tail_entries. fold (entries m).
  rewrite (sign_fold_values m _ _ "").
  unfold signature_of. by rewrite !string_app_assoc.
Qed.

Lemma Search_entries (ToUpper : string → string) (req : SearchRequest.t) :
  entries (Search_params ToUpper req) = Search_list ToUpper req [].
Proof.
  unfold Search_params, Search_list. cbv zeta.
  destruct req as [city hid iata ci co ad cc [[a1 a2] a3] ip cur la wait].
  cbn [SearchRequest.CityID SearchRequest.HotelID SearchRequest.IATA
       SearchRequest.CheckIn SearchRequest.CheckOut SearchRequest.AdultsCount
       SearchRequest.ChildrenCount SearchRequest.ChildAges
       SearchRequest.CustomerIp SearchRequest.Currency SearchRequest.Lang
       SearchRequest.WaitForResult fst snd].
  abstract_values. generalize (ToUpper cur). intros vcur.
  destruct (bool_decide (hid ≠ 0)), (bool_decide (wait ≠ 0)),
    (bool_decide (iata ≠ ""));
    (case_bool_decide as H0; case_bool_decide as H1; case_bool_decide as H3;
     try lia; vm_compute; reflexivity).
Qed.

Lemma Search_pairs (ToUpper : string → string) (req : SearchRequest.t)
    (M S : string) :
  Query.pairs
    (URL.Add "signature" S
       (URL.Add "marker" M
          (foldl (sign_param (Search_params ToUpper req)) ("", ∅)
             (Sort (URL.keys (Search_params ToUpper req)))).2))
  = Search_list ToUpper req [("marker", M); ("signature", S)].
Proof.
  unfold Search_params, Search_list. cbv zeta.
  destruct req as [city hid iata ci co ad cc [[a1 a2] a3] ip cur la wait].
  cbn [SearchRequest.CityID SearchRequest.HotelID SearchRequest.IATA
       SearchRequest.CheckIn SearchRequest.CheckOut SearchRequest.AdultsCount
       SearchRequest.ChildrenCount SearchRequest.ChildAges
       SearchRequest.CustomerIp SearchRequest.Currency SearchRequest.Lang
       SearchRequest.WaitForResult fst snd].
  abstract_values. generalize (ToUpper cur). intros vcur.
  destruct (bool_decide (hid ≠ 0)), (bool_decide (wait ≠ 0)),
    (bool_decide (iata ≠ ""));
    (case_bool_decide as H0; case_bool_decide as H1; case_bool_decide as H3;
     try lia; vm_compute; reflexivity).
Qed.

Lemma Results_entries (req : SearchResultsRequest.t) :
  entries (FetchSearchResults_params req ∅) = Results_list req [] [].
Proof.
  unfold FetchSearchResults_params, Results_list. cbv zeta.
  destruct req as [sid li off sb sa rc].
  cbn [SearchResultsRequest.SearchID SearchResultsRequest.Limit
       SearchResultsRequest.Offset SearchResultsRequest.SortBy
       SearchResultsRequest.SortAsc SearchResultsRequest.RoomsCount].
  abstract_values.
  destruct (bool_decide (li ≠ 0)), (bool_decide (off ≠ 0)),
    (bool_decide (sb ≠ "")), (bool_decide (sa = -1)), (bool_decide (rc ≠ 0));
    vm_compute; reflexivity.
Qed.

Lemma Results_pairs (req : SearchResultsRequest.t) (M S : string) :
  Query.pairs
    (URL.Add "signature" S
       (URL.Add "marker" M
          (foldl (sign_param (FetchSearchResults_params req ∅)) ("", ∅)
             (Sort (URL.keys (FetchSearchResults_params req ∅)))).2))
  = Results_list req [("marker", M)] [("signature", S)].
Proof.
  unfold FetchSearchResults_params, Results_list. cbv zeta.
  destruct req as [sid li off sb sa rc].
  cbn [SearchResultsRequest.SearchID SearchResultsRequest.Limit
       SearchResultsRequest.Offset SearchResultsRequest.SortBy
       SearchResultsRequest.SortAsc SearchResultsRequest.RoomsCount].
  abstract_values.
  destruct (bool_decide (li ≠ 0)), (bool_decide (off ≠ 0)),
    (bool_decide (sb ≠ "")), (bool_decide (sa = -1)), (bool_decide (rc ≠ 0));
    vm_compute; reflexivity.
Qed.

Lemma HotelList_string (this : API) (locationId : string) :
  withSignature this (Some (<["locationId" := locationId]> ∅)) =
  "locationId=" +:+ URL.QueryEscape locationId
    +:+ "&marker=" +:+ Strconv.Itoa (marker this)
    +:+ "&signature="
    +:+ md5_hex (token this +:+ ":" +:+ Strconv.Itoa (marker this)
                   +:+ ":" +:+ locationId).
Proof.
  rewrite withSignature_pairs.
  assert (entries (<["locationId" := locationId]> ∅)
          = [("locationId", locationId)]) as -> by (vm_compute; reflexivity).
  unfold signature_of, concat_values. simpl foldr. rewrite string_app_nil_r.
  generalize (md5_hex_unreserved
    (token this +:+ ":" +:+ Strconv.Itoa (marker this) +:+ ":" +:+ locationId)).
  generalize (md5_hex
    (token this +:+ ":" +:+ Strconv.Itoa (marker this) +:+ ":" +:+ locationId)).
  intros S HS.
  generalize (Itoa_unreserved (marker this)).
  generalize (Strconv.Itoa (marker this)). intros M HM.
  assert (Query.pairs
            (URL.Add "signature" S
               (URL.Add "marker" M
                  (foldl (sign_param (<["locationId" := locationId]> ∅)) ("", ∅)
                     (Sort (URL.keys (<["locationId" := locationId]> ∅)))).2))
          = [("locationId", locationId); ("marker", M); ("signature", S)]) as ->
    by (vm_compute; reflexivity).
  unfold Query.encode, Query.segment. simpl.
  rewrite (QueryEscape_unreserved _ HM), (QueryEscape_unreserved _ HS).
  by rewrite !string_app_assoc.
Qed.

Section SignedQueries.

Context {Countries_t Cities_t Amenity HotelList RoomTypes_t SearchResults : Type}.
Context `{!Zero Countries_t, !JSON (list Countries_t)}.
Context `{!Zero Cities_t, !JSON (list Cities_t)}.
Context `{!Zero Amenity, !JSON (list Amenity)}.
Context `{!Zero HotelList, !JSON HotelList}.
Context `{!Zero RoomTypes_t, !JSON RoomTypes_t}.
Context `{!Zero SearchResults, !JSON SearchResults}.
Context `{!JSON SearchStart}.
Variable ToUpper : string → string.

(** X19.  [Search], for every client and in every world, requests exactly
    one URL: the search endpoint followed by the encoding of the request's
    parameters, of [marker] and of [signature], keys in ascending order.
    The signature is that of the request's parameters alone, in the same
    order.  [childAge1] is sent when the children count is not zero,
    [childAge2] when it exceeds one, [childAge3] only when it is exactly
    three; [hotelId], [iata] and [waitForResult] only when set; the
    currency goes through [ToUpper].  Parsing the query string gives the
    parameters back. *)
Theorem Search_query (this : API) (req : SearchRequest.t) (w : World) :
  let signed := Search_list ToUpper req [] in
  let sent := Search_list ToUpper req
                [("marker", Strconv.Itoa (marker this));
                 ("signature", signature_of this signed)] in
  network_calls (run w (Search ToUpper this req)).2
  = [apiURL +:+ "search/start.json?" +:+ Query.encode sent]
  ∧ Parse.query (Query.encode sent) = Some sent.
Proof.
  intros signed sent. split; [|apply parse_encode].
  subst signed sent. rewrite <- Search_pairs, <- Search_entries.
  rewrite <- withSignature_pairs, Search_run. cbv zeta.
  destruct (net w _) as [r|msg]; [|done].
  by destruct (Decode (Body r) zero) as [resp [e|]].
Qed.

(** X20.  [FetchSearchResults] requests nothing for the identifiers 0 and
    -1; for any other it requests exactly one URL: the results endpoint
    followed by the encoding of [searchId], of the optional parameters
    that are set, of [marker] and of [signature], keys in ascending
    order.  [sortAsc] is sent only for the value -1, and then as 0.  The
    signature is that of the request's parameters alone. *)
Theorem FetchSearchResults_query (this : API) (req : SearchResultsRequest.t)
    (w : World) :
  let signed := Results_list req [] [] in
  let sent := Results_list req
                [("marker", Strconv.Itoa (marker this))]
                [("signature", signature_of this signed)] in
  network_calls
    (run w (FetchSearchResults (SearchResults := SearchResults) this req)).2
  = (if bool_decide (SearchResultsRequest.SearchID req = 0
                     ∨ SearchResultsRequest.SearchID req = -1)
     then []
     else [apiURL +:+ "search/getResult.json?" +:+ Query.encode sent])
  ∧ Parse.query (Query.encode sent) = Some sent.
Proof.
  intros signed sent. split; [|apply parse_encode].
  subst signed sent. rewrite <- Results_pairs, <- Results_entries.
  rewrite <- withSignature_pairs, FetchSearchResults_run. cbv zeta.
  destruct (bool_decide_reflect (SearchResultsRequest.SearchID req = 0)).
  { rewrite bool_decide_eq_true_2 by auto. done. }
  destruct (bool_decide_reflect (SearchResultsRequest.SearchID req = -1)).
  { rewrite bool_decide_eq_true_2 by auto. done. }
  rewrite bool_decide_eq_false_2 by tauto.
  destruct (net w _) as [r|msg]; [|done].
  by destruct (Decode (Body r) zero) as [resp [e|]].
Qed.

(** X21.  [FetchHotelList] requests nothing when the gate refuses the
    client; otherwise exactly one URL, which is the hotels endpoint
    followed by [locationId], escaped, then [marker], then [signature],
    the digest of [token:marker:locationId] with the identifier as given
    (not escaped). *)
Theorem FetchHotelList_query (this : API) (locationId : string) (w : World) :
  network_calls
    (run w (FetchHotelList (HotelList := HotelList) this locationId)).2
  = match checkAccess this with
    | Some _ => []
    | None =>
        [apiURL +:+ "static/hotels.json?"
           +:+ "locationId=" +:+ URL.QueryEscape locationId
           +:+ "&marker=" +:+ Strconv.Itoa (marker this)
           +:+ "&signature="
           +:+ md5_hex (token this +:+ ":" +:+ Strconv.Itoa (marker this)
                          +:+ ":" +:+ locationId)]
    end.
Proof.
  rewrite FetchHotelList_run. cbv zeta. rewrite HotelList_string.
  destruct (checkAccess this) as [err|]; [done|].
  destruct (net w _) as [r|msg]; [|done].
  by destruct (Decode (Body r) zero) as [resp [e|]].
Qed.

(** X22.  The four methods without parameters send the same query string,
    [marker=<marker>&signature=<digest of token:marker>], each to its own
    endpoint.  [Countries], [Cities] and [Amenities] send it only when the
    gate lets the client through; [RoomTypes] sends it always, also with
    an empty token. *)
Theorem static_queries (this : API) (w : World) :
  let gated (url : string) : list string :=
    match checkAccess this with Some _ => [] | None => [url] end in
  network_calls (run w (Countries (Countries_t := Countries_t) this)).2
  = gated (apiURL +:+ "static/countries.json?" +:+ credentials_query this)
  ∧ network_calls (run w (Cities (Cities_t := Cities_t) this)).2
    = gated (apiURL +:+ "static/locations.json?" +:+ credentials_query this)
  ∧ network_calls (run w (Amenities (Amenity := Amenity) this)).2
    = gated (apiURL +:+ "static/amenities.json?" +:+ credentials_query this)
  ∧ network_calls (run w (RoomTypes (RoomTypes_t := RoomTypes_t) this)).2
    = [apiURL +:+ "static/roomTypes.json?" +:+ credentials_query this].
Proof.
  intros gated. subst gated. unfold credentials_query.
  rewrite <- withSignature_nil_string.
  rewrite Countries_run, Cities_run, Amenities_run, RoomTypes_run. cbv zeta.
  destruct (checkAccess this) as [err|].
  - repeat split.
    destruct (net w _) as [r|msg]; [|done].
    by destruct (Decode (Body r) _) as [resp [e|]].
  - repeat split;
      (destruct (net w _) as [r|msg]; [|done];
       by destruct (Decode (Body r) _) as [resp [e|]]).
Qed.

End SignedQueries.

(** ** What [Price] leaves in the request *)

Section PriceTwice.

Context {PriceResponse : Type}.
Context `{!Zero PriceResponse, !JSON (list PriceResponse)}.
Variable IP_String : list Z → string.
Variable max_PriceResponses : Z.

(** X23.  [Price] writes into the caller's request: a [Limit] of 0 is 1
    afterwards (any other is kept).  A second call with the same request
    therefore sends [limit=1], which the first call did not send; nothing
    else in its query changes. *)
Theorem Price_second_call (this : API) (req : PriceRequest.t) (w : World) :
  let req' := Price_stores req in
  (PriceRequest.Limit req' = Price_limit req
   ∧ PriceRequest.Limit req' ≠ 0
   ∧ Price_stores req' = req')
  ∧ network_calls
      (run w (Price (PriceResponse := PriceResponse)
                IP_String max_PriceResponses this req')).2
    = [apiURL +:+ "cache.json?" +:+ Query.encode (Price_list IP_String req')]
  ∧ ∀ k x, (k, x) ∈ Price_list IP_String req' ↔
           (k, x) ∈ Price_list IP_String req
           ∨ (PriceRequest.Limit req = 0 ∧ k = "limit" ∧ x = "1").
Proof.
  intros req'. subst req'.
  assert (Hne : Price_limit req ≠ 0).
  { unfold Price_limit. by case_bool_decide. }
  split; [|split].
  - split; [done|]. split; [done|].
    unfold Price_stores at 1. f_equal. cbn [PriceRequest.Limit Price_stores].
    unfold Price_limit at 1. cbn [PriceRequest.Limit Price_stores].
    by rewrite bool_decide_eq_true_2.
  - rewrite <- Price_pairs, <- Encode_pairs. apply Price_network_calls.
  - intros k x. unfold Price_limit in Hne. unfold Price_list, Price_stores, Price_limit.
    cbn [PriceRequest.Location PriceRequest.CheckIn PriceRequest.CheckOut
         PriceRequest.Currency PriceRequest.LocationID PriceRequest.HotelID
         PriceRequest.Hotel PriceRequest.Adults PriceRequest.Children
         PriceRequest.Infants PriceRequest.Limit PriceRequest.CustomerIP].
    assert (Hon : ∀ k' x', opt true k' x' = [(k', x')]) by done.
    assert (Hoff : ∀ k' x', opt false k' x' = []) by done.
    destruct (decide (PriceRequest.Limit req = 0)) as [H0|Hn].
    + rewrite !(bool_decide_eq_false_2 (PriceRequest.Limit req ≠ 0))
        by (by intros Hz).
      cbv beta iota. rewrite (bool_decide_eq_true_2 (1 ≠ 0)) by done.
      rewrite Hon, Hoff, !elem_of_app, elem_of_nil.
      change (Strconv.Itoa 1) with "1".
      split.
      * intros H.
        repeat (destruct H as [H|H];
                [first [tauto|apply list_elem_of_singleton in H;
                              injection H as -> ->; by right]|]).
        tauto.
      * intros [H|(_ & -> & ->)].
        -- repeat (destruct H as [H|H]; [tauto|]). tauto.
        -- repeat (first [left; apply list_elem_of_here|right]).
    + rewrite !(bool_decide_eq_true_2 (PriceRequest.Limit req ≠ 0)) by done.
      cbv beta iota.
      split; [by left|]. intros [?|[? _]]; done.
Qed.

End PriceTwice.

(** ** Instances *)

Lemma updateRemains_numerals_witness :
  let r := counted ["42"; "7"] ["100"] in
  (Header r !! "X-Ratelimit-Remaining" = Some (Strconv.Itoa 42 :: ["7"])
   ∧ Header r !! "X-Ratelimit-Limit" = Some (Strconv.Itoa 100 :: []))
  ∧ remains (updateRemains test_api r) = clamp_int 42
  ∧ limit (updateRemains test_api r) = clamp_int 100
  ∧ (Strconv.int_min ≤ 42 ≤ Strconv.int_max →
     remains (updateRemains test_api r) = 42)
  ∧ (Strconv.int_min ≤ 100 ≤ Strconv.int_max →
     limit (updateRemains test_api r) = 100).
Proof.
  intros r.
  assert (H1 : Header r !! "X-Ratelimit-Remaining"
               = Some (Strconv.Itoa 42 :: ["7"])) by (vm_compute; reflexivity).
  assert (H2 : Header r !! "X-Ratelimit-Limit" = Some (Strconv.Itoa 100 :: []))
    by (vm_compute; reflexivity).
  split; [exact (conj H1 H2)|].
  exact (updateRemains_numerals test_api r 42 100 ["7"] [] H1 H2).
Defined.

Lemma made_by_NewAPI_gate_witness :
  made_by_NewAPI test_api
  ∧ marker test_api ≠ 0
  ∧ (checkAccess test_api = Some ErrNoAccess ↔ token test_api = "")
  ∧ ∀ tok, checkAccess (SetToken test_api tok) = None ↔ tok ≠ "".
Proof.
  assert (H : made_by_NewAPI test_api).
  { change test_api
      with (SetToken {| token := ""; marker := 35290; remains := 0; limit := 0 |}
              "bqadagadoqadjmcocciox1grdvp3ag").
    apply made_token, (made_new 35290). reflexivity. }
  split; [exact H|]. exact (made_by_NewAPI_gate test_api H).
Defined.

Lemma transport_error_returned_witness :
  let c := CallFetchHotelList "12153" in
  let msg := "dial tcp: no route to host" in
  answers Raw.offline (Sample.trace c test_api Raw.offline) = [GetFailed msg]
  ∧ Sample.outcome c test_api Raw.offline = Some (Some (TransportError msg)).
Proof.
  intros c msg.
  assert (H : answers Raw.offline (Sample.trace c test_api Raw.offline)
              = [GetFailed msg]) by (vm_compute; reflexivity).
  split; [exact H|].
  exact (@transport_error_returned Raw.t Raw.t Raw.t Raw.t Raw.t Raw.t Raw.t Raw.t
           Raw.zero_t Raw.json_t Raw.zero_t Sample.json_list
           Raw.zero_t Sample.json_list Raw.zero_t Sample.json_list
           Raw.zero_t Sample.json_list Raw.zero_t Raw.json_t
           Raw.zero_t Raw.json_t Raw.zero_t Raw.json_t Sample.json_start
           Sample.IP_String Sample.ToUpper
           Sample.max_PriceResponses c test_api Raw.offline msg H).
Defined.

Lemma errors_by_method_witness :
  let c := CallFetchSearchResults (Sample.results_request 0) in
  Sample.outcome c test_api Raw.offline = Some (Some ErrEmptySearchID)
  ∧ ∃ req, c = CallFetchSearchResults req
           ∧ SearchResultsRequest.SearchID req = 0.
Proof.
  intros c.
  assert (H : Sample.outcome c test_api Raw.offline
              = Some (Some ErrEmptySearchID)) by (vm_compute; reflexivity).
  split; [exact H|].
  exact (@errors_by_method Raw.t Raw.t Raw.t Raw.t Raw.t Raw.t Raw.t Raw.t
           Raw.zero_t Raw.json_t Raw.zero_t Sample.json_list
           Raw.zero_t Sample.json_list Raw.zero_t Sample.json_list
           Raw.zero_t Sample.json_list Raw.zero_t Raw.json_t
           Raw.zero_t Raw.json_t Raw.zero_t Raw.json_t Sample.json_start
           Sample.IP_String Sample.ToUpper
           Sample.max_PriceResponses c test_api Raw.offline ErrEmptySearchID H).
Defined.

Lemma undecodable_answer_witness :
  let w := Sample.answering Sample.error_page in
  let msg := "json: cannot unmarshal into Go value of type []" in
  (answers w (Sample.trace CallCountries test_api w) = [GetOK Sample.error_page]
   ∧ @undecodable (list Raw.t) Sample.json_list
       (Body Sample.error_page) msg)
  ∧ Sample.outcome CallCountries test_api w = Some (Some ErrNoAccess).
Proof.
  intros w msg.
  assert (H1 : answers w (Sample.trace CallCountries test_api w)
               = [GetOK Sample.error_page]) by (vm_compute; reflexivity).
  assert (H2 : @undecodable (list Raw.t) Sample.json_list
                 (Body Sample.error_page) msg) by (intros init; reflexivity).
  split; [exact (conj H1 H2)|].
  exact (@undecodable_answer Raw.t Raw.t Raw.t Raw.t Raw.t Raw.t Raw.t Raw.t
           Raw.zero_t Raw.json_t Raw.zero_t Sample.json_list
           Raw.zero_t Sample.json_list Raw.zero_t Sample.json_list
           Raw.zero_t Sample.json_list Raw.zero_t Raw.json_t
           Raw.zero_t Raw.json_t Raw.zero_t Raw.json_t Sample.json_start
           Sample.IP_String Sample.ToUpper
           Sample.max_PriceResponses CallCountries test_api w
           Sample.error_page msg H1 H2).
Defined.

Lemma errors_return_blank_witness :
  let c := CallSearch Sample.search_request in
  let e := TransportError "dial tcp: no route to host" in
  Sample.outcome c test_api Raw.offline = Some (Some e)
  ∧ ((run Raw.offline
        (@Search Sample.json_start Sample.ToUpper test_api
           Sample.search_request)).1
     = Returned (0, Some e)
     ∨ ∃ req, c = CallFetchSearchResults req
              ∧ SearchResultsRequest.SearchID req = -1).
Proof.
  intros c e.
  assert (H : Sample.outcome c test_api Raw.offline = Some (Some e))
    by (vm_compute; reflexivity).
  split; [exact H|].
  exact (@errors_return_blank Raw.t Raw.t Raw.t Raw.t Raw.t Raw.t Raw.t Raw.t
           Raw.zero_t Raw.json_t Raw.zero_t Sample.json_list
           Raw.zero_t Sample.json_list Raw.zero_t Sample.json_list
           Raw.zero_t Sample.json_list Raw.zero_t Raw.json_t
           Raw.zero_t Raw.json_t Raw.zero_t Raw.json_t Sample.json_start
           Sample.IP_String Sample.ToUpper
           Sample.max_PriceResponses c test_api Raw.offline e H).
Defined.

Lemma failed_Search_identifier_witness :
  let e := TransportError "dial tcp: no route to host" in
  (run Raw.offline
     (@Search Sample.json_start Sample.ToUpper test_api
        Sample.search_request)).1
  = Returned (0, Some e)
  ∧ 0 = 0
  ∧ ∀ (this' : API) (req' : SearchResultsRequest.t) (w' : World),
      SearchResultsRequest.SearchID req' = 0 →
      run w' (@FetchSearchResults Raw.t Raw.zero_t Raw.json_t this' req')
      = (Returned (None, Some ErrEmptySearchID), []).
Proof.
  intros e.
  assert (H : (run Raw.offline
                 (@Search Sample.json_start Sample.ToUpper test_api
                    Sample.search_request)).1
              = Returned (0, Some e)) by (vm_compute; reflexivity).
  split; [exact H|].
  exact (@failed_Search_identifier Raw.t Raw.zero_t Raw.json_t
           Sample.json_start Sample.ToUpper test_api Sample.search_request Raw.offline 0 e H).
Defined.

Lemma reads_only_fixture_witness :
  let c := CallFetchSearchResults (Sample.results_request (-1)) in
  let path := "./test_data.json" in
  READ path ∈ Sample.trace c test_api Raw.offline
  ∧ path = "./test_data.json"
  ∧ Sample.trace c test_api Raw.offline = [READ path]
  ∧ ∃ req, c = CallFetchSearchResults req
           ∧ SearchResultsRequest.SearchID req = -1.
Proof.
  intros c path.
  assert (Ht : Sample.trace c test_api Raw.offline = [READ path])
    by (vm_compute; reflexivity).
  assert (H : READ path ∈ Sample.trace c test_api Raw.offline)
    by (rewrite Ht; apply list_elem_of_here).
  split; [exact H|].
  exact (@reads_only_fixture Raw.t Raw.t Raw.t Raw.t Raw.t Raw.t Raw.t Raw.t
           Raw.zero_t Raw.json_t Raw.zero_t Sample.json_list
           Raw.zero_t Sample.json_list Raw.zero_t Sample.json_list
           Raw.zero_t Sample.json_list Raw.zero_t Raw.json_t
           Raw.zero_t Raw.json_t Raw.zero_t Raw.json_t Sample.json_start
           Sample.IP_String Sample.ToUpper
           Sample.max_PriceResponses c test_api Raw.offline path H).
Defined.
